(** * Sentinel Training platform: session and reset-token lifecycle

    A shallow embedding of the authentication core of the platform
    ([app/schemas.py], [app/auth/utils.py], [app/auth/dependencies.py],
    [app/auth/router.py], [app/main.py]) together with the theorems that
    relate its behaviour to the written specification.

    Conventions.
    - A Python [str] is a [string]: the sequence of its code points, over
      the range U+0000..U+00FF that [ascii] covers.
    - Timestamps are seconds, as [Z].  Row identifiers (UUIDs) are [Z].
    - The three tables are lists of rows in storage order, so that
      [Query.first()] is [List.find].
    - Whatever the process draws from its surroundings during one request
      (the clock, [uuid4], [secrets.token_urlsafe], the bcrypt salt, the
      outcome of the SMTP dialogue) is collected in an [Env] record. *)

From Stdlib Require Import ZArith List String Ascii Bool Lia.
Import ListNotations.

Local Open Scope string_scope.
Local Open Scope Z_scope.

(* ================================================================== *)
(** ** Python string operations used by the sources *)

Module PyStr.

Definition ord (c : ascii) : Z := Z.of_N (N_of_ascii c).
Definition chr (n : Z) : ascii := ascii_of_N (Z.to_N n).

Definition between (lo hi n : Z) : bool := (lo <=? n) && (n <=? hi).

(** [c.isupper()] for a one-character string. *)
Definition isupper (c : ascii) : bool :=
  let n := ord c in
  between 65 90 n || between 192 214 n || between 216 222 n.

(** [c.islower()] for a one-character string. *)
Definition islower (c : ascii) : bool :=
  let n := ord c in
  between 97 122 n || (n =? 170) || (n =? 181) || (n =? 186)
  || between 223 246 n || between 248 255 n.

(** [c.isdigit()] for a one-character string. *)
Definition isdigit (c : ascii) : bool :=
  let n := ord c in
  between 48 57 n || (n =? 178) || (n =? 179) || (n =? 185).

Definition lower_char (c : ascii) : ascii :=
  if isupper c then chr (ord c + 32) else c.

(** [s.lower()] *)
Fixpoint lower (s : string) : string :=
  match s with
  | EmptyString => EmptyString
  | String c s' => String (lower_char c) (lower s')
  end.

(** [len(s)] *)
Definition len (s : string) : Z := Z.of_nat (String.length s).

(** [any(p(c) for c in s)] *)
Fixpoint any (p : ascii -> bool) (s : string) : bool :=
  match s with
  | EmptyString => false
  | String c s' => p c || any p s'
  end.

(** [s.startswith(p)] *)
Fixpoint startswith (s p : string) {struct p} : bool :=
  match p, s with
  | EmptyString, _ => true
  | String _ _, EmptyString => false
  | String a p', String b s' => Ascii.eqb a b && startswith s' p'
  end.

(** [s.endswith(suffix)] *)
Fixpoint endswith (s suffix : string) : bool :=
  (s =? suffix)%string
  || match s with
     | EmptyString => false
     | String _ s' => endswith s' suffix
     end.


(** [s[:n]] for [n >= 0] *)
Definition take (n : nat) (s : string) : string := String.substring 0 n s.

(** [bool(s)]: the empty string is falsy. *)
Definition truthy (s : string) : bool :=
  match s with EmptyString => false | String _ _ => true end.

End PyStr.

Import PyStr.

(* ================================================================== *)
(** ** Configuration ([app/config.py]) *)

Record Settings := {
  session_expire_days : Z;
  password_reset_expire_hours : Z;
  base_url : string;
  environment : string
}.

(** The values [Settings] takes when the process environment overrides
    none of them. *)
Definition default_settings : Settings := {|
  session_expire_days := 7;
  password_reset_expire_hours := 1;
  base_url := "http://localhost:8000";
  environment := "development"
|}.

(* ================================================================== *)
(** ** Persisted rows (the three tables of the initial migration) *)

(** A nullable BOOLEAN column: [None] is SQL NULL. *)
Definition sql_bool := option bool.

(** [col == True] / [col == False] inside a filter: NULL satisfies neither. *)
Definition sql_is (b : bool) (v : sql_bool) : bool :=
  match v with Some x => Bool.eqb x b | None => false end.

(** Python truthiness of the loaded attribute ([None] is falsy). *)
Definition py_truthy (v : sql_bool) : bool :=
  match v with Some x => x | None => false end.

(** Table [users].  The [created_at] column is written by a column
    default only and read by no operation below; it is left out. *)
Record User := {
  user_id : Z;
  user_email : string;
  hashed_password : string;
  full_name : option string;
  is_active : sql_bool;
  updated_at : option Z
}.

(** Table [sessions]. *)
Record SessionModel := {
  session_id : Z;
  session_user_id : Z;
  session_token : string;
  session_expires_at : Z;
  ip_address : option string;
  user_agent : option string
}.

(** Table [password_reset_tokens]. *)
Record PasswordResetToken := {
  reset_id : Z;
  reset_user_id : Z;
  reset_token : string;
  reset_expires_at : Z;
  used : sql_bool
}.

Record Store := {
  users : list User;
  sessions : list SessionModel;
  password_reset_tokens : list PasswordResetToken
}.

Definition empty_store : Store :=
  {| users := []; sessions := []; password_reset_tokens := [] |}.

(** The constraints the migration declares: primary keys, the three
    UNIQUE columns, the two foreign keys and the CHECK on [users.email]. *)
Record wf_store (st : Store) : Prop := {
  wf_user_pk : NoDup (map user_id (users st));
  wf_user_email : NoDup (map user_email (users st));
  wf_user_check :
    forall u, In u (users st) -> endswith (user_email u) "@vysusgroup.com" = true;
  wf_session_pk : NoDup (map session_id (sessions st));
  wf_session_token : NoDup (map session_token (sessions st));
  wf_session_fk :
    forall s, In s (sessions st) -> In (session_user_id s) (map user_id (users st));
  wf_reset_pk : NoDup (map reset_id (password_reset_tokens st));
  wf_reset_token : NoDup (map reset_token (password_reset_tokens st));
  wf_reset_fk :
    forall r, In r (password_reset_tokens st) ->
              In (reset_user_id r) (map user_id (users st))
}.

(** The same constraints as the database checks them on a write. *)
Fixpoint distinct {A} (eqb : A -> A -> bool) (l : list A) : bool :=
  match l with
  | [] => true
  | x :: l' => negb (existsb (eqb x) l') && distinct eqb l'
  end.

Definition constraints_ok (st : Store) : bool :=
  distinct Z.eqb (map user_id (users st))
  && distinct String.eqb (map user_email (users st))
  && forallb (fun u => endswith (user_email u) "@vysusgroup.com") (users st)
  && distinct Z.eqb (map session_id (sessions st))
  && distinct String.eqb (map session_token (sessions st))
  && forallb (fun s => existsb (Z.eqb (session_user_id s)) (map user_id (users st)))
             (sessions st)
  && distinct Z.eqb (map reset_id (password_reset_tokens st))
  && distinct String.eqb (map reset_token (password_reset_tokens st))
  && forallb (fun r => existsb (Z.eqb (reset_user_id r)) (map user_id (users st)))
             (password_reset_tokens st).

(** [VARCHAR(n)]: a longer value is refused. *)
Definition fits (n : Z) (s : string) : bool := len s <=? n.

(** The widths the migration declares for [users.email] and
    [users.full_name], the two columns that [register] fills with text
    taken from the request body.  (The other endpoints write minted
    tokens, digests, the peer address and a user agent cut to its
    column's width.) *)
Definition user_fits_columns (u : User) : bool :=
  fits 255 (user_email u)
  && match full_name u with
     | Some name => fits 255 name
     | None => true
     end.

(* ================================================================== *)
(** ** Requests, responses and exceptions *)

Record Request := {
  method : string;
  path : string;
  cookie_session_token : option string;   (* request.cookies.get("session_token") *)
  client_host : option string;            (* request.client.host, when there is a client *)
  header_user_agent : option string       (* request.headers.get("user-agent") *)
}.

Record Cookie := {
  key : string;
  value : string;
  httponly : bool;
  secure : bool;
  samesite : string;
  max_age : Z
}.

Inductive CookieInstruction :=
| SetCookie (c : Cookie)
| DeleteCookie (name : string).

Inductive Content :=
| JsonMessage (message : string)          (* MessageResponse *)
| JsonDetail (detail : string)            (* body of an HTTPException *)
| JsonErrors (errors : list string)       (* body of a request validation error *)
| JsonUser (u : User)                     (* UserResponse, read from the row *)
| JsonHealth
| HtmlFile (file : string)
| NoBody.

Record Response := {
  status : Z;
  content : Content;
  cookies : list CookieInstruction;
  location : option string
}.

Inductive exn :=
| HTTPException (status_code : Z) (detail : string)
| RequestValidationError (errors : list string)
| OperationalError          (* the database cannot be reached *)
| IntegrityError            (* the database refuses a write: a constraint is violated *)
| DataError                 (* the database refuses a write: a value does not fit its column *)
| SMTPException.            (* the mail transport failed *)

Inductive result (A : Type) :=
| Return (a : A)
| Raise (e : exn).
Arguments Return {A} a.
Arguments Raise {A} e.

(** The failure names of the specification, as the sources raise them. *)
Definition Conflict : exn :=
  HTTPException 400 "An account with this email already exists".
Definition Unauthorized : exn :=
  HTTPException 401 "Invalid email or password".
Definition Forbidden : exn :=
  HTTPException 403 "Account is deactivated".
Definition InvalidOrExpired : exn :=
  HTTPException 400 "Invalid or expired reset token".
Definition UserNotFound : exn :=
  HTTPException 400 "User not found".

Definition is_ValidationError (e : exn) : Prop :=
  exists errors, e = RequestValidationError errors /\ errors <> [].

(** How the framework renders what an endpoint returned or raised. *)
Definition plain (code : Z) (c : Content) : Response :=
  {| status := code; content := c; cookies := []; location := None |}.

Definition render_exn (e : exn) : Response :=
  match e with
  | HTTPException code detail => plain code (JsonDetail detail)
  | RequestValidationError errors => plain 422 (JsonErrors errors)
  | OperationalError | IntegrityError | DataError | SMTPException => plain 500 NoBody
  end.

Definition render (r : result Response) : Response :=
  match r with
  | Return resp => resp
  | Raise e => render_exn e
  end.

(* ================================================================== *)
(** ** Request schemas ([app/schemas.py]) *)

Module Schemas.

(** What a field validator does with a value: hand back the (possibly
    rewritten) value, or raise [ValueError]. *)
Inductive checked :=
| Accept (v : string)
| ValueError (msg : string).

Definition errors_of (c : checked) : list string :=
  match c with Accept _ => [] | ValueError msg => [msg] end.

Definition validate_vysus_email (v : string) : checked :=
  if negb (endswith (lower v) "@vysusgroup.com")
  then ValueError "Only @vysusgroup.com emails are allowed"
  else Accept (lower v).

Definition validate_password (v : string) : checked :=
  if len v <? 10
  then ValueError "Password must be at least 10 characters"
  else if negb (any isupper v)
  then ValueError "Password must contain at least one uppercase letter"
  else if negb (any islower v)
  then ValueError "Password must contain at least one lowercase letter"
  else if negb (any isdigit v)
  then ValueError "Password must contain at least one number"
  else Accept v.

(** The fields of a request body as they reach the field validators.
    [EmailStr] fields hold the address as pydantic's own e-mail check
    delivered it; a body that check rejects never reaches this code. *)
Record UserCreate := {
  uc_email : string;
  uc_password : string;
  uc_full_name : option string
}.

Record UserLogin := {
  ul_email : string;
  ul_password : string
}.

Record ForgotPasswordRequest := {
  fp_email : string
}.

Record ResetPasswordRequest := {
  rp_token : string;
  rp_new_password : string
}.

(** Building the model runs every field's validator and reports the
    failures of all fields together. *)
Definition UserCreate_validate (raw : UserCreate) : result UserCreate :=
  match validate_vysus_email (uc_email raw), validate_password (uc_password raw) with
  | Accept e, Accept p =>
      Return {| uc_email := e; uc_password := p; uc_full_name := uc_full_name raw |}
  | ce, cp => Raise (RequestValidationError (errors_of ce ++ errors_of cp)%list)
  end.

Definition ResetPasswordRequest_validate (raw : ResetPasswordRequest)
  : result ResetPasswordRequest :=
  match validate_password (rp_new_password raw) with
  | Accept p => Return {| rp_token := rp_token raw; rp_new_password := p |}
  | cp => Raise (RequestValidationError (errors_of cp))
  end.

(** The complexity policy, as the specification words it. *)
Definition policy_conforming (v : string) : bool :=
  (10 <=? len v) && any isupper v && any islower v && any isdigit v.

End Schemas.

(* ================================================================== *)
(** ** The database session as a state-and-exception monad *)

(** One outgoing message: recipient and the reset URL it carries. *)
Record Mail := {
  mail_to : string;
  mail_reset_url : string
}.

(** What a handler works against: the database as committed, the view of
    the open transaction, whether the database answers, and the mail
    handed to the transport so far. *)
Record World := {
  database : Store;
  txn : Store;
  reachable : bool;
  outbox : list Mail
}.

Definition M (A : Type) : Type := World -> result A * World.

Definition ret {A} (a : A) : M A := fun w => (Return a, w).

Definition bind {A B} (m : M A) (k : A -> M B) : M B :=
  fun w =>
    match m w with
    | (Return a, w') => k a w'
    | (Raise e, w') => (Raise e, w')
    end.

Definition raise {A} (e : exn) : M A := fun w => (Raise e, w).

(** [try: body except Exception: handler] *)
Definition try_except {A} (body : M A) (handler : exn -> M A) : M A :=
  fun w =>
    match body w with
    | (Return a, w') => (Return a, w')
    | (Raise e, w') => handler e w'
    end.

Declare Scope db_scope.
Delimit Scope db_scope with db.
Notation "x <- m ;; k" := (bind m (fun x => k))
  (at level 100, m at next level, right associativity) : db_scope.
Notation "m ;;; k" := (bind m (fun _ => k))
  (at level 100, right associativity) : db_scope.
Local Open Scope db_scope.

(** [db.query(...)...first()] and friends: read the transaction's view. *)
Definition query {A} (q : Store -> A) : M A :=
  fun w =>
    if reachable w then (Return (q (txn w)), w) else (Raise OperationalError, w).

(** [db.query(...).update(...)] / [.delete()]: a statement sent at once. *)
Definition execute (f : Store -> Store) : M unit :=
  fun w =>
    if reachable w
    then (Return tt, {| database := database w; txn := f (txn w);
                        reachable := reachable w; outbox := outbox w |})
    else (Raise OperationalError, w).

(** [db.add(row)] and attribute assignment on a loaded row: recorded in
    the session, written with the next flush. *)
Definition stage (f : Store -> Store) : M unit :=
  fun w =>
    (Return tt, {| database := database w; txn := f (txn w);
                   reachable := reachable w; outbox := outbox w |}).

(** The INSERT of a new [users] row, sent when the session is flushed on
    commit: the database refuses a row that does not fit its columns. *)
Definition flush_new_user (u : User) : M unit :=
  fun w => if user_fits_columns u then (Return tt, w) else (Raise DataError, w).

(** [db.commit()]: the pending writes reach the database, which takes
    them only if its constraints still hold. *)
Definition commit : M unit :=
  fun w =>
    if reachable w
    then
      if constraints_ok (txn w)
      then (Return tt, {| database := txn w; txn := txn w;
                          reachable := reachable w; outbox := outbox w |})
      else (Raise IntegrityError, w)
    else (Raise OperationalError, w).

(** [SessionLocal()]: a new session on the database as it stands. *)
Definition SessionLocal (st : Store) (up : bool) : World :=
  {| database := st; txn := st; reachable := up; outbox := [] |}.

(** What one request leaves behind. *)
Record Outcome := {
  response : Response;
  store : Store;
  mail : list Mail
}.

(** Modelled from the spec: the [get_db] dependency of [app/database.py],
    which is not among the sources.  It opens a session for the request
    and closes it when the endpoint is over; what the endpoint did not
    commit is then gone ("must roll back fully").  Endpoints are run
    against a database that answers. *)
Definition with_get_db (st : Store) (endpoint : M Response) : Outcome :=
  let '(r, w) := endpoint (SessionLocal st true) in
  {| response := render r; store := database w; mail := outbox w |}.

(** The outcome of a request that ends in [e] with nothing committed. *)
Definition refused (e : exn) (st : Store) : Outcome :=
  {| response := render_exn e; store := st; mail := [] |}.

(** A body the schema rejects never reaches the endpoint. *)
Definition with_body {B} (validated : result B) (st : Store)
  (endpoint : B -> M Response) : Outcome :=
  match validated with
  | Return data => with_get_db st (endpoint data)
  | Raise e => {| response := render_exn e; store := st; mail := [] |}
  end.

(** Row-level helpers for the statements the endpoints issue. *)
Definition set_users (f : list User -> list User) (st : Store) : Store :=
  {| users := f (users st); sessions := sessions st;
     password_reset_tokens := password_reset_tokens st |}.

Definition set_sessions (f : list SessionModel -> list SessionModel) (st : Store) : Store :=
  {| users := users st; sessions := f (sessions st);
     password_reset_tokens := password_reset_tokens st |}.

Definition set_reset_tokens
  (f : list PasswordResetToken -> list PasswordResetToken) (st : Store) : Store :=
  {| users := users st; sessions := sessions st;
     password_reset_tokens := f (password_reset_tokens st) |}.

Definition with_used (v : sql_bool) (r : PasswordResetToken) : PasswordResetToken :=
  {| reset_id := reset_id r; reset_user_id := reset_user_id r;
     reset_token := reset_token r; reset_expires_at := reset_expires_at r;
     used := v |}.

Definition with_password (digest : string) (now : Z) (u : User) : User :=
  {| user_id := user_id u; user_email := user_email u;
     hashed_password := digest; full_name := full_name u;
     is_active := is_active u; updated_at := Some now |}.

(** What the process draws from outside during one request. *)
Record Env := {
  utcnow : Z;                 (* datetime.utcnow() *)
  uuid4 : Z;                  (* primary key of a row created in this request *)
  token_urlsafe : string;     (* secrets.token_urlsafe(32) *)
  salt : string;              (* the salt bcrypt draws *)
  smtp_ok : bool              (* whether aiosmtplib.send goes through *)
}.

(* ================================================================== *)
(** ** The application *)

Section App.

#[local] Set Default Proof Using "Type".

(** The loaded configuration. *)
Variable settings : Settings.

(** The password-storage primitive (passlib's bcrypt context):
    [hash_password] with the salt it drew, and [verify_password]. *)
Variable hash_password : string -> string -> string.
Variable verify_password : string -> string -> bool.

(** [os.path.dirname(__file__)] of [app/main.py], and the file system:
    the paths for which [os.path.exists] and [os.path.isfile] both hold. *)
Variable app_dir : string.
Variable isfile : string -> bool.

(** Propositional solvers generalise over the whole context; [detach]
    first drops the section's parameters the goal does not mention. *)
Ltac detach :=
  try clear isfile; try clear app_dir; try clear verify_password;
  try clear hash_password; try clear settings.

(** *** [app/auth/utils.py] *)

Definition generate_session_token (env : Env) : string := token_urlsafe env.

Definition generate_password_reset_token (env : Env) : string := token_urlsafe env.

Definition get_session_expiry (env : Env) : Z :=
  utcnow env + session_expire_days settings * 86400.

Definition get_password_reset_expiry (env : Env) : Z :=
  utcnow env + password_reset_expire_hours settings * 3600.

(** *** [app/email/service.py] *)

Definition send_password_reset_email (env : Env) (to_email reset_token : string)
  : M unit :=
  let reset_url := base_url settings ++ "/reset-password?token=" ++ reset_token in
  fun w =>
    if smtp_ok env
    then (Return tt,
          {| database := database w; txn := txn w; reachable := reachable w;
             outbox := (outbox w ++ [{| mail_to := to_email;
                                        mail_reset_url := reset_url |}])%list |})
    else (Raise SMTPException, w).

(** *** [app/auth/dependencies.py] *)

Definition session_is_valid (token : string) (now : Z) (s : SessionModel) : bool :=
  (session_token s =? token)%string && (now <? session_expires_at s).

Definition user_is_active_with_id (id : Z) (u : User) : bool :=
  (user_id u =? id) && sql_is true (is_active u).

Definition get_current_user_from_cookie (env : Env) (session_token : string)
  : M (option User) :=
  if negb (truthy session_token) then ret None
  else
    session <- query (fun st =>
      find (session_is_valid session_token (utcnow env)) (sessions st)) ;;
    match session with
    | None => ret None
    | Some session =>
        user <- query (fun st =>
          find (user_is_active_with_id (session_user_id session)) (users st)) ;;
        ret user
    end.

Definition get_current_user (env : Env) (request : Request) : M User :=
  match cookie_session_token request with
  | None => raise (HTTPException 401 "Not authenticated")
  | Some session_token =>
      if negb (truthy session_token)
      then raise (HTTPException 401 "Not authenticated")
      else
        user <- get_current_user_from_cookie env session_token ;;
        match user with
        | None => raise (HTTPException 401 "Invalid or expired session")
        | Some user => ret user
        end
  end.

(** *** [app/auth/router.py] *)

Definition has_email (email : string) (u : User) : bool :=
  (user_email u =? email)%string.

Definition has_id (id : Z) (u : User) : bool := user_id u =? id.

Definition has_session_token (token : string) (s : SessionModel) : bool :=
  (session_token s =? token)%string.

Definition register (env : Env) (user_data : Schemas.UserCreate) : M Response :=
  existing_user <- query (fun st =>
    find (has_email (lower (Schemas.uc_email user_data))) (users st)) ;;
  match existing_user with
  | Some _ => raise Conflict
  | None =>
      let new_user := {|
        user_id := uuid4 env;
        user_email := lower (Schemas.uc_email user_data);
        hashed_password := hash_password (salt env) (Schemas.uc_password user_data);
        full_name := Schemas.uc_full_name user_data;
        is_active := Some true;
        updated_at := None |} in
      stage (set_users (fun us => (us ++ [new_user])%list)) ;;;
      flush_new_user new_user ;;;
      commit ;;;
      ret (plain 200 (JsonMessage "Registration successful. You can now log in."))
  end.

Definition session_cookie (session_token : string) : Cookie := {|
  key := "session_token";
  value := session_token;
  httponly := true;
  secure := (environment settings =? "production")%string;
  samesite := "lax";
  max_age := session_expire_days settings * 24 * 60 * 60 |}.

Definition login (env : Env) (request : Request) (user_data : Schemas.UserLogin)
  : M Response :=
  user <- query (fun st =>
    find (has_email (lower (Schemas.ul_email user_data))) (users st)) ;;
  match user with
  | None => raise Unauthorized
  | Some user =>
      if negb (verify_password (Schemas.ul_password user_data) (hashed_password user))
      then raise Unauthorized
      else if negb (py_truthy (is_active user))
      then raise Forbidden
      else
        let session_token := generate_session_token env in
        let session := {|
          session_id := uuid4 env;
          session_user_id := user_id user;
          session_token := session_token;
          session_expires_at := get_session_expiry env;
          ip_address := client_host request;
          user_agent :=
            Some (take 500 (match header_user_agent request with
                            | Some ua => ua
                            | None => ""
                            end)) |} in
        stage (set_sessions (fun ss => (ss ++ [session])%list)) ;;;
        commit ;;;
        ret {| status := 200; content := JsonUser user;
               cookies := [SetCookie (session_cookie session_token)];
               location := None |}
  end.

Definition logout (env : Env) (request : Request) : M Response :=
  (match cookie_session_token request with
   | Some session_token =>
       if truthy session_token
       then
         execute (set_sessions (filter (fun s =>
           negb (has_session_token session_token s)))) ;;; commit
       else ret tt
   | None => ret tt
   end) ;;;
  ret {| status := 200; content := JsonMessage "Logged out successfully";
         cookies := [DeleteCookie "session_token"]; location := None |}.

Definition get_me (env : Env) (request : Request) : M Response :=
  current_user <- get_current_user env request ;;
  ret (plain 200 (JsonUser current_user)).

Definition unused_of (id : Z) (r : PasswordResetToken) : bool :=
  (reset_user_id r =? id) && sql_is false (used r).

(** [.update({"used": True})] on the rows the filter selects. *)
Definition retire (id : Z) (r : PasswordResetToken) : PasswordResetToken :=
  if unused_of id r then with_used (Some true) r else r.

Definition forgot_password (env : Env) (data : Schemas.ForgotPasswordRequest)
  : M Response :=
  user <- query (fun st =>
    find (has_email (lower (Schemas.fp_email data))) (users st)) ;;
  (match user with
   | Some user =>
       if py_truthy (is_active user)
       then
         execute (set_reset_tokens (map (retire (user_id user)))) ;;;
         let token := generate_password_reset_token env in
         let reset_token := {|
           reset_id := uuid4 env;
           reset_user_id := user_id user;
           reset_token := token;
           reset_expires_at := get_password_reset_expiry env;
           used := Some false |} in
         stage (set_reset_tokens (fun rs => (rs ++ [reset_token])%list)) ;;;
         commit ;;;
         try_except
           (send_password_reset_email env (user_email user) token)
           (fun _ => ret tt)
       else ret tt
   | None => ret tt
   end) ;;;
  ret (plain 200 (JsonMessage
    "If an account exists with this email, you will receive a password reset link.")).

Definition is_consumable (token : string) (now : Z) (r : PasswordResetToken) : bool :=
  (reset_token r =? token)%string && sql_is false (used r)
  && (now <? reset_expires_at r).

Definition reset_password (env : Env) (data : Schemas.ResetPasswordRequest)
  : M Response :=
  reset_token <- query (fun st =>
    find (is_consumable (Schemas.rp_token data) (utcnow env))
         (password_reset_tokens st)) ;;
  match reset_token with
  | None => raise InvalidOrExpired
  | Some reset_token =>
      user <- query (fun st => find (has_id (reset_user_id reset_token)) (users st)) ;;
      match user with
      | None => raise UserNotFound
      | Some user =>
          stage (set_users (map (fun u =>
            if has_id (user_id user) u
            then with_password
                   (hash_password (salt env) (Schemas.rp_new_password data))
                   (utcnow env) u
            else u))) ;;;
          stage (set_reset_tokens (map (fun r =>
            if reset_id r =? reset_id reset_token
            then with_used (Some true) r else r))) ;;;
          execute (set_sessions (filter (fun s =>
            negb (session_user_id s =? user_id user)))) ;;;
          commit ;;;
          ret (plain 200 (JsonMessage
            "Password reset successful. Please log in with your new password."))
      end
  end.

(** The store a successful login asks the database to commit. *)
Definition login_store (env : Env) (request : Request) (user : User) (st : Store)
  : Store :=
  set_sessions (fun ss =>
    (ss ++ [{| session_id := uuid4 env;
               session_user_id := user_id user;
               session_token := generate_session_token env;
               session_expires_at := get_session_expiry env;
               ip_address := client_host request;
               user_agent :=
                 Some (take 500 (match header_user_agent request with
                                 | Some ua => ua
                                 | None => ""
                                 end)) |}])%list) st.

(** The store a successful reset asks the database to commit. *)
Definition reset_store (env : Env) (data : Schemas.ResetPasswordRequest)
  (reset_token : PasswordResetToken) (user : User) (st : Store) : Store :=
  set_sessions (filter (fun s => negb (session_user_id s =? user_id user)))
    (set_reset_tokens (map (fun r =>
       if reset_id r =? reset_id reset_token then with_used (Some true) r else r))
      (set_users (map (fun u =>
         if has_id (user_id user) u
         then with_password
                (hash_password (salt env) (Schemas.rp_new_password data))
                (utcnow env) u
         else u)) st)).

(** The row [forgot_password] creates for [user], and the store it asks
    the database to commit. *)
Definition issued_reset_token (env : Env) (user : User) : PasswordResetToken := {|
  reset_id := uuid4 env;
  reset_user_id := user_id user;
  reset_token := generate_password_reset_token env;
  reset_expires_at := get_password_reset_expiry env;
  used := Some false |}.

Definition forgot_store (env : Env) (user : User) (st : Store) : Store :=
  set_reset_tokens (fun rs => (rs ++ [issued_reset_token env user])%list)
    (set_reset_tokens (map (retire (user_id user))) st).

Definition forgot_password_ack : Response :=
  plain 200 (JsonMessage
    "If an account exists with this email, you will receive a password reset link.").

Definition reset_mail (env : Env) (user : User) : Mail := {|
  mail_to := user_email user;
  mail_reset_url :=
    base_url settings ++ "/reset-password?token=" ++ generate_password_reset_token env |}.

Definition reset_password_ok : Response :=
  plain 200 (JsonMessage
    "Password reset successful. Please log in with your new password.").

(** *** The endpoints as mounted: body validation, then the handler
    inside a [get_db] session. *)

Definition post_register (env : Env) (st : Store) (body : Schemas.UserCreate)
  : Outcome :=
  with_body (Schemas.UserCreate_validate body) st (register env).

Definition post_login (env : Env) (st : Store) (request : Request)
  (body : Schemas.UserLogin) : Outcome :=
  with_get_db st (login env request body).

Definition post_logout (env : Env) (st : Store) (request : Request) : Outcome :=
  with_get_db st (logout env request).

Definition get_auth_me (env : Env) (st : Store) (request : Request) : Outcome :=
  with_get_db st (get_me env request).

Definition post_forgot_password (env : Env) (st : Store)
  (body : Schemas.ForgotPasswordRequest) : Outcome :=
  with_get_db st (forgot_password env body).

Definition post_reset_password (env : Env) (st : Store)
  (body : Schemas.ResetPasswordRequest) : Outcome :=
  with_body (Schemas.ResetPasswordRequest_validate body) st (reset_password env).

(** The specification's [resolve_session]: the cookie lookup on a fresh
    session over the store, as the gate performs it. *)
Definition resolve_session (env : Env) (st : Store) (token : string)
  : result (option User) :=
  fst (get_current_user_from_cookie env token (SessionLocal st true)).

(** *** [app/main.py]: the gate *)

Definition PUBLIC_PATHS : list string := [
  "/login";
  "/register";
  "/reset-password";
  "/forgot-password";
  "/api/auth/";
  "/api/health";
  "/favicon.ico"
].

(** [any(path.startswith(p) for p in self.PUBLIC_PATHS)] *)
Definition is_public (path : string) : bool :=
  existsb (fun p => startswith path p) PUBLIC_PATHS.

(** What [dispatch] does with a request: hand it on (with the account
    it stored in [request.state.user], if any) or answer it itself. *)
Inductive Gate :=
| CallNext (state_user : option User)
| Respond (r : Response).

Definition redirect_to_login : Response :=
  {| status := 302; content := NoBody; cookies := []; location := Some "/login" |}.

Definition redirect_to_login_clearing_cookie : Response :=
  {| status := 302; content := NoBody;
     cookies := [DeleteCookie "session_token"]; location := Some "/login" |}.

(** [up] tells whether the database answers while the gate resolves the
    cookie. *)
Definition dispatch (env : Env) (up : bool) (st : Store) (request : Request) : Gate :=
  if is_public (path request) then CallNext None
  else
    match cookie_session_token request with
    | None => Respond redirect_to_login
    | Some session_token =>
        if negb (truthy session_token) then Respond redirect_to_login
        else
          let db := SessionLocal st up in
          match
            try_except
              (user <- get_current_user_from_cookie env session_token ;;
               match user with
               | None => ret (Respond redirect_to_login_clearing_cookie)
               | Some user => ret (CallNext (Some user))
               end)
              (fun _ => ret (Respond redirect_to_login))
              db
          with
          | (Return g, _) => g
          | (Raise _, _) => Respond redirect_to_login   (* the handler returned: not reached *)
          end
    end.

(** *** [app/main.py]: the routes behind the gate *)










(** *** The statements of [reset_password] one by one *)

(** What [reset_password] sends once it holds the token row and its
    owner, in the order of the source. *)
Definition reset_statements (env : Env) (data : Schemas.ResetPasswordRequest)
  (reset_token : PasswordResetToken) (user : User) : list (M unit) := [
  stage (set_users (map (fun u =>
    if has_id (user_id user) u
    then with_password
           (hash_password (salt env) (Schemas.rp_new_password data))
           (utcnow env) u
    else u)));
  stage (set_reset_tokens (map (fun r =>
    if reset_id r =? reset_id reset_token
    then with_used (Some true) r else r)));
  execute (set_sessions (filter (fun s =>
    negb (session_user_id s =? user_id user))));
  commit
].

Fixpoint run_all (statements : list (M unit)) : M unit :=
  match statements with
  | [] => ret tt
  | m :: rest => m ;;; run_all rest
  end.

(** The same statements when the connection to the database is lost
    after the first [k] of them. *)
Definition interrupted (k : nat) (statements : list (M unit)) : M unit :=
  if (k <? List.length statements)%nat
  then run_all (firstn k statements) ;;; raise OperationalError
  else run_all statements.

(** [reset_password] written over [reset_statements]. *)
Definition reset_password_by_statements (env : Env)
  (data : Schemas.ResetPasswordRequest) : M Response :=
  reset_token <- query (fun st =>
    find (is_consumable (Schemas.rp_token data) (utcnow env))
         (password_reset_tokens st)) ;;
  match reset_token with
  | None => raise InvalidOrExpired
  | Some reset_token =>
      user <- query (fun st => find (has_id (reset_user_id reset_token)) (users st)) ;;
      match user with
      | None => raise UserNotFound
      | Some user =>
          run_all (reset_statements env data reset_token user) ;;;
          ret (plain 200 (JsonMessage
            "Password reset successful. Please log in with your new password."))
      end
  end.

(** *** What the committing endpoints ask the database to store *)

(** The row [register] adds. *)
Definition new_account (env : Env) (user_data : Schemas.UserCreate) : User := {|
  user_id := uuid4 env;
  user_email := lower (Schemas.uc_email user_data);
  hashed_password := hash_password (salt env) (Schemas.uc_password user_data);
  full_name := Schemas.uc_full_name user_data;
  is_active := Some true;
  updated_at := None |}.

Definition register_store (env : Env) (user_data : Schemas.UserCreate) (st : Store)
  : Store :=
  set_users (fun us => (us ++ [new_account env user_data])%list) st.

Definition registration_ok : Response :=
  plain 200 (JsonMessage "Registration successful. You can now log in.").

(** The row [login] adds for [user], and its answer. *)
Definition issued_session (env : Env) (request : Request) (user : User)
  : SessionModel := {|
  session_id := uuid4 env;
  session_user_id := user_id user;
  session_token := generate_session_token env;
  session_expires_at := get_session_expiry env;
  ip_address := client_host request;
  user_agent :=
    Some (take 500 (match header_user_agent request with
                    | Some ua => ua
                    | None => ""
                    end)) |}.

Definition login_ok (env : Env) (user : User) : Response :=
  {| status := 200; content := JsonUser user;
     cookies := [SetCookie (session_cookie (generate_session_token env))];
     location := None |}.

(** What [logout] leaves of the sessions, and its answer. *)
Definition logout_store (token : string) (st : Store) : Store :=
  set_sessions (filter (fun s => negb (has_session_token token s))) st.

Definition logout_ok : Response :=
  {| status := 200; content := JsonMessage "Logged out successfully";
     cookies := [DeleteCookie "session_token"]; location := None |}.

(** The two refusals of [get_current_user]. *)
Definition not_authenticated : exn := HTTPException 401 "Not authenticated".
Definition invalid_session : exn := HTTPException 401 "Invalid or expired session".

(** [env] with another outcome of the SMTP dialogue. *)
Definition with_smtp_ok (b : bool) (env : Env) : Env := {|
  utcnow := utcnow env;
  uuid4 := uuid4 env;
  token_urlsafe := token_urlsafe env;
  salt := salt env;
  smtp_ok := b |}.

(* ================================================================ *)
(** ** Sample data for the worked examples *)

(** A transparent stand-in for the password-storage primitive. *)
Definition sample_hash (salt password : string) : string := "plain$" ++ password.

Definition sample_verify (password digest : string) : bool :=
  (digest =? "plain$" ++ password)%string.

Definition alice : User := {|
  user_id := 1;
  user_email := "alice@vysusgroup.com";
  hashed_password := "plain$GoodPass123";
  full_name := Some "Alice";
  is_active := Some true;
  updated_at := None |}.

Definition bob : User := {|
  user_id := 2;
  user_email := "bob@vysusgroup.com";
  hashed_password := "plain$OtherPass456";
  full_name := None;
  is_active := Some false;
  updated_at := None |}.

Definition alice_session : SessionModel := {|
  session_id := 10;
  session_user_id := 1;
  session_token := "alice-session";
  session_expires_at := 600000;
  ip_address := None;
  user_agent := None |}.

Definition alice_reset : PasswordResetToken := {|
  reset_id := 20;
  reset_user_id := 1;
  reset_token := "alice-reset";
  reset_expires_at := 3600;
  used := Some false |}.

Definition sample_store : Store := {|
  users := [alice; bob];
  sessions := [alice_session];
  password_reset_tokens := [alice_reset] |}.

Definition sample_env : Env := {|
  utcnow := 100;
  uuid4 := 21;
  token_urlsafe := "fresh-token";
  salt := "salt";
  smtp_ok := true |}.

Definition later_env : Env := {|
  utcnow := 200;
  uuid4 := 22;
  token_urlsafe := "fresher-token";
  salt := "pepper";
  smtp_ok := true |}.

Definition get_request (p : string) (cookie : option string) : Request := {|
  method := "GET";
  path := p;
  cookie_session_token := cookie;
  client_host := None;
  header_user_agent := None |}.

Definition carol_body : Schemas.UserCreate := {|
  Schemas.uc_email := "Carol@VysusGroup.com";
  Schemas.uc_password := "GoodPass123";
  Schemas.uc_full_name := Some "Carol" |}.

Definition carol_again : Schemas.UserCreate := {|
  Schemas.uc_email := "carol@VYSUSGROUP.COM";
  Schemas.uc_password := "OtherPass456";
  Schemas.uc_full_name := None |}.

Definition carol_login : Schemas.UserLogin := {|
  Schemas.ul_email := "carol@vysusgroup.com";
  Schemas.ul_password := "GoodPass123" |}.

Definition alice_login : Schemas.UserLogin := {|
  Schemas.ul_email := "Alice@vysusgroup.com";
  Schemas.ul_password := "GoodPass123" |}.

Definition alice_new_login : Schemas.UserLogin := {|
  Schemas.ul_email := "alice@vysusgroup.com";
  Schemas.ul_password := "NewPass4567" |}.

Definition alice_new_password : Schemas.ResetPasswordRequest := {|
  Schemas.rp_token := "alice-reset";
  Schemas.rp_new_password := "NewPass4567" |}.

Definition alice_forgot : Schemas.ForgotPasswordRequest := {|
  Schemas.fp_email := "Alice@vysusgroup.com" |}.

Definition post_request (p : string) (cookie : option string) : Request := {|
  method := "POST";
  path := p;
  cookie_session_token := cookie;
  client_host := Some "203.0.113.7";
  header_user_agent := Some "curl/8.5" |}.



(* ================================================================ *)
(** ** Properties *)

(** *** Strings *)


Lemma endswith_nil suffix : endswith "" suffix = ("" =? suffix)%string.
Proof. cbn [endswith]. apply orb_false_r. Qed.

Lemma endswith_cons c s suffix :
  endswith (String c s) suffix
  = ((String c s =? suffix)%string || endswith s suffix).
Proof. reflexivity. Qed.

Lemma endswith_spec s suffix :
  endswith s suffix = true <-> exists front, s = front ++ suffix.
Proof.
  induction s as [|c s IH].
  - rewrite endswith_nil, String.eqb_eq. split.
    + intros <-. now exists "".
    + intros [[|d front] H]; simpl in H; [assumption | discriminate].
  - rewrite endswith_cons, orb_true_iff, String.eqb_eq, IH. split.
    + intros [<- | [front ->]]; [now exists "" | now exists (String c front)].
    + intros [[|d front] H]; simpl in H.
      * now left.
      * injection H as -> ->. right. now exists front.
Qed.

Lemma truthy_false s : truthy s = false <-> s = "".
Proof. destruct s; simpl; split; congruence. Qed.

(** *** Lists and tables *)

Lemma NoDup_map_inj {A B} (f : A -> B) (l : list A) (x y : A) :
  NoDup (map f l) -> In x l -> In y l -> f x = f y -> x = y.
Proof.
  induction l as [|a l IH]; simpl; intros Hnd Hx Hy Hf; [contradiction|].
  inversion Hnd as [|? ? Hnotin Hnd']; subst.
  destruct Hx as [-> | Hx], Hy as [-> | Hy]; auto.
  - exfalso. apply Hnotin. rewrite Hf. now apply in_map.
  - exfalso. apply Hnotin. rewrite <- Hf. now apply in_map.
Qed.

Lemma find_exists {A} (p : A -> bool) (l : list A) :
  (exists x, In x l /\ p x = true) -> exists y, find p l = Some y.
Proof.
  intros [x [Hin Hp]]. destruct (find p l) as [y|] eqn:E; [now exists y|].
  rewrite (find_none _ _ E x Hin) in Hp. discriminate.
Qed.


(** *** Running the monad *)

Lemma query_up {A} (q : Store -> A) (w : World) :
  reachable w = true -> query q w = (Return (q (txn w)), w).
Proof. intros H. unfold query. now rewrite H. Qed.


(** *** Resolving a session cookie *)

Lemma session_is_valid_iff token now s :
  session_is_valid token now s = true
  <-> session_token s = token /\ now < session_expires_at s.
Proof.
  unfold session_is_valid.
  now rewrite andb_true_iff, String.eqb_eq, Z.ltb_lt.
Qed.

Lemma user_is_active_with_id_iff id u :
  user_is_active_with_id id u = true
  <-> user_id u = id /\ is_active u = Some true.
Proof.
  unfold user_is_active_with_id, sql_is.
  rewrite andb_true_iff, Z.eqb_eq.
  destruct (is_active u) as [[|]|]; simpl; detach; intuition congruence.
Qed.

Lemma get_current_user_from_cookie_pure env token w :
  snd (get_current_user_from_cookie env token w) = w.
Proof.
  unfold get_current_user_from_cookie.
  destruct (truthy token); simpl; [|reflexivity].
  unfold bind, query, ret.
  destruct (reachable w) eqn:Hup; simpl; [|reflexivity].
  destruct (find _ (sessions (txn w))); simpl; [|reflexivity].
  now rewrite Hup.
Qed.

(** The lookup spelled out on a database that answers. *)
Lemma get_current_user_from_cookie_up env token w :
  reachable w = true ->
  get_current_user_from_cookie env token w =
  (Return
     (if negb (truthy token) then None
      else match find (session_is_valid token (utcnow env)) (sessions (txn w)) with
           | None => None
           | Some s => find (user_is_active_with_id (session_user_id s)) (users (txn w))
           end), w).
Proof.
  intros Hup. unfold get_current_user_from_cookie.
  destruct (truthy token); simpl; [|reflexivity].
  unfold bind. rewrite (query_up _ _ Hup).
  destruct (find _ (sessions (txn w))); [|reflexivity].
  rewrite (query_up _ _ Hup). reflexivity.
Qed.

(** C4.  [resolve_session] ([get_current_user_from_cookie]) never changes
    the store, and on a database that answers it yields an account
    exactly when the token is non-empty, some session row carries it
    with an expiry strictly after now, and the account that session
    belongs to exists and is active; otherwise it yields none.  The
    account it yields is that owner. *)
Theorem resolve_session_exactly_when_valid env w token :
  snd (get_current_user_from_cookie env token w) = w /\
  (reachable w = true ->
   wf_store (txn w) ->
   exists r,
     fst (get_current_user_from_cookie env token w) = Return r /\
     ((exists u, r = Some u) <->
      (token <> "" /\
       exists s, In s (sessions (txn w)) /\
                 session_token s = token /\
                 utcnow env < session_expires_at s /\
                 exists u, In u (users (txn w)) /\
                           user_id u = session_user_id s /\
                           is_active u = Some true)) /\
     (forall u, r = Some u ->
        In u (users (txn w)) /\ is_active u = Some true /\
        exists s, In s (sessions (txn w)) /\ session_token s = token /\
                  utcnow env < session_expires_at s /\
                  session_user_id s = user_id u)).
Proof.
  split; [apply get_current_user_from_cookie_pure|].
  intros Hup Hwf.
  rewrite (get_current_user_from_cookie_up _ _ _ Hup). simpl.
  eexists; split; [reflexivity|].
  destruct (truthy token) eqn:Ht; simpl.
  - assert (Hne : token <> "") by (intros ->; discriminate).
    destruct (find (session_is_valid token (utcnow env)) (sessions (txn w)))
      as [s|] eqn:Hs.
    + apply find_some in Hs. destruct Hs as [Hin Hv].
      apply session_is_valid_iff in Hv. destruct Hv as [Htok Hexp].
      split; [split|].
      * intros [u Hu]. apply find_some in Hu. destruct Hu as [Hu Hact].
        apply user_is_active_with_id_iff in Hact. destruct Hact as [Hid Hact].
        split; [assumption|]. exists s. repeat split; try assumption.
        exists u. now repeat split.
      * intros [_ [s' [Hin' [Htok' [Hexp' [u [Hu [Hid Hact]]]]]]]].
        assert (s' = s).
        { apply (NoDup_map_inj session_token (sessions (txn w)));
            [apply (wf_session_token _ Hwf) | assumption | assumption | congruence]. }
        subst s'. apply find_exists. exists u. split; [assumption|].
        now apply user_is_active_with_id_iff.
      * intros u Hu. apply find_some in Hu. destruct Hu as [Hu Hact].
        apply user_is_active_with_id_iff in Hact. destruct Hact as [Hid Hact].
        repeat split; try assumption. exists s. now repeat split.
    + split; [split|].
      * intros [u Hu]. discriminate.
      * intros [_ [s [Hin [Htok [Hexp _]]]]].
        pose proof (find_none _ _ Hs s Hin) as Hf.
        assert (session_is_valid token (utcnow env) s = true)
          by now apply session_is_valid_iff.
        congruence.
      * intros u Hu. discriminate.
  - apply truthy_false in Ht. subst token. split; [split|].
    + intros [u Hu]. discriminate.
    + intros [Hne _]. now contradiction Hne.
    + intros u Hu. discriminate.
Qed.

(** *** Logging in *)

Lemma find_by_key {A B} (f : A -> B) (p : A -> bool) (l : list A) (x : A) :
  NoDup (map f l) -> In x l -> p x = true ->
  (forall y, In y l -> p y = true -> f y = f x) ->
  find p l = Some x.
Proof.
  intros Hnd Hin Hp Hkey.
  destruct (find_exists p l (ex_intro _ x (conj Hin Hp))) as [y Hy].
  rewrite Hy. f_equal.
  destruct (find_some _ _ Hy) as [Hyin Hyp].
  apply (NoDup_map_inj f l); auto.
Qed.

Lemma has_email_iff e u : has_email e u = true <-> user_email u = e.
Proof. unfold has_email. apply String.eqb_eq. Qed.

Lemma find_has_email st u e :
  wf_store st -> In u (users st) -> user_email u = e ->
  find (has_email e) (users st) = Some u.
Proof.
  intros Hwf Hin He.
  apply (find_by_key user_email); auto.
  - apply (wf_user_email _ Hwf).
  - now apply has_email_iff.
  - intros y _ Hy. apply has_email_iff in Hy. congruence.
Qed.

Lemma find_has_email_none st e :
  (forall u, In u (users st) -> user_email u <> e) ->
  find (has_email e) (users st) = None.
Proof.
  intros H. destruct (find (has_email e) (users st)) as [u|] eqn:E; [|reflexivity].
  destruct (find_some _ _ E) as [Hin Hp]. apply has_email_iff in Hp.
  now destruct (H u Hin).
Qed.

(** [post_login] case by case. *)
Lemma post_login_cases env st request body :
  post_login env st request body =
  match find (has_email (lower (Schemas.ul_email body))) (users st) with
  | None => refused Unauthorized st
  | Some user =>
      if negb (verify_password (Schemas.ul_password body) (hashed_password user))
      then refused Unauthorized st
      else if negb (py_truthy (is_active user))
      then refused Forbidden st
      else if negb (constraints_ok (login_store env request user st))
      then refused IntegrityError st
      else
        {| response :=
             {| status := 200; content := JsonUser user;
                cookies := [SetCookie (session_cookie (generate_session_token env))];
                location := None |};
           store := login_store env request user st;
           mail := [] |}
  end.
Proof.
  unfold post_login, with_get_db, login, bind.
  rewrite query_up by reflexivity. cbn [txn SessionLocal].
  destruct (find _ (users st)) as [user|]; [|reflexivity].
  destruct (verify_password _ _); simpl; [|reflexivity].
  destruct (py_truthy _); simpl; [|reflexivity].
  unfold stage, commit, ret. simpl.
  fold (login_store env request user st).
  destruct (constraints_ok _); reflexivity.
Qed.

(** C3.  A login whose e-mail matches no stored account and a login for
    an existing active account whose password fails verification leave
    the same outcome: the same Unauthorized response (status and body),
    no cookie, an untouched store. *)
Theorem login_unknown_email_equals_wrong_password
  env1 env2 st request1 request2 body1 body2 u :
  wf_store st ->
  (forall v, In v (users st) -> user_email v <> lower (Schemas.ul_email body1)) ->
  In u (users st) ->
  user_email u = lower (Schemas.ul_email body2) ->
  is_active u = Some true ->
  verify_password (Schemas.ul_password body2) (hashed_password u) = false ->
  post_login env1 st request1 body1 = post_login env2 st request2 body2 /\
  response (post_login env1 st request1 body1) =
    plain 401 (JsonDetail "Invalid email or password") /\
  store (post_login env1 st request1 body1) = st /\
  store (post_login env2 st request2 body2) = st.
Proof.
  intros Hwf Hnone Hin Hmail _ Hbad.
  rewrite !post_login_cases.
  rewrite (find_has_email_none _ _ Hnone).
  rewrite (find_has_email _ _ _ Hwf Hin Hmail), Hbad. simpl.
  repeat split; reflexivity.
Qed.

(** C10.  For a deactivated account a login with a wrong password is
    answered Unauthorized, not Forbidden: the password is verified before
    the active flag is looked at, so a Forbidden answer implies that the
    caller presented the password the stored digest verifies. *)
Theorem login_checks_password_before_active_flag env st request body :
  (forall u,
     wf_store st ->
     In u (users st) ->
     user_email u = lower (Schemas.ul_email body) ->
     is_active u = Some false ->
     verify_password (Schemas.ul_password body) (hashed_password u) = false ->
     post_login env st request body = refused Unauthorized st /\
     response (post_login env st request body) <> render_exn Forbidden) /\
  (response (post_login env st request body) = render_exn Forbidden ->
   exists u,
     In u (users st) /\
     user_email u = lower (Schemas.ul_email body) /\
     verify_password (Schemas.ul_password body) (hashed_password u) = true /\
     py_truthy (is_active u) = false).
Proof.
  rewrite post_login_cases. split.
  - intros u Hwf Hin Hmail _ Hbad.
    rewrite (find_has_email _ _ _ Hwf Hin Hmail), Hbad. simpl.
    split; [reflexivity | discriminate].
  - destruct (find _ (users st)) as [u|] eqn:E; [|discriminate].
    destruct (find_some _ _ E) as [Hin Hp]. apply has_email_iff in Hp.
    destruct (verify_password _ _) eqn:Hv; simpl; [|discriminate].
    destruct (py_truthy _) eqn:Ha; simpl;
      [destruct (constraints_ok _); discriminate|].
    intros _. exists u. now repeat split.
Qed.

(** *** The constraints of the schema *)

Lemma existsb_eqb_In {A} (eqb : A -> A -> bool)
  (Heqb : forall x y, eqb x y = true <-> x = y) (x : A) (l : list A) :
  existsb (eqb x) l = true <-> In x l.
Proof.
  rewrite existsb_exists. split.
  - intros [y [Hin Hy]]. apply Heqb in Hy. now subst.
  - intros Hin. exists x. split; [assumption | now apply Heqb].
Qed.

Lemma distinct_NoDup {A} (eqb : A -> A -> bool)
  (Heqb : forall x y, eqb x y = true <-> x = y) (l : list A) :
  distinct eqb l = true <-> NoDup l.
Proof.
  induction l as [|a l IH]; simpl.
  - split; [constructor | reflexivity].
  - rewrite andb_true_iff, negb_true_iff, IH. split.
    + intros [Hn Hd]. constructor; [|assumption].
      intros Hin. apply (existsb_eqb_In eqb Heqb) in Hin. congruence.
    + intros H. inversion H as [|? ? Hn Hd]; subst. split; [|assumption].
      destruct (existsb (eqb a) l) eqn:E; [|reflexivity].
      apply (existsb_eqb_In eqb Heqb) in E. contradiction.
Qed.

Lemma constraints_ok_iff st : constraints_ok st = true <-> wf_store st.
Proof.
  unfold constraints_ok.
  rewrite !andb_true_iff, !forallb_forall.
  rewrite !(distinct_NoDup Z.eqb Z.eqb_eq), !(distinct_NoDup String.eqb String.eqb_eq).
  split.
  - intros [[[[[[[[H1 H2] H3] H4] H5] H6] H7] H8] H9].
    constructor; auto.
    + intros s Hs. apply (existsb_eqb_In Z.eqb Z.eqb_eq). auto.
    + intros r Hr. apply (existsb_eqb_In Z.eqb Z.eqb_eq). auto.
  - intros [H1 H2 H3 H4 H5 H6 H7 H8 H9].
    repeat split; auto.
    + intros s Hs. apply (existsb_eqb_In Z.eqb Z.eqb_eq). auto.
    + intros r Hr. apply (existsb_eqb_In Z.eqb Z.eqb_eq). auto.
Qed.

Lemma map_map_same {A B} (f : A -> B) (g : A -> A) (l : list A) :
  (forall x, f (g x) = f x) -> map f (map g l) = map f l.
Proof. intros H. rewrite map_map. apply map_ext. exact H. Qed.

Lemma NoDup_map_filter {A B} (key : A -> B) (keep : A -> bool) (rows : list A)
  (Hkeys : NoDup (map key rows)) :
  NoDup (map key (filter keep rows)).
Proof.
  revert Hkeys. induction rows as [|a rows IH]; simpl; intros H; [constructor|].
  inversion H as [|? ? Hn Hd]; subst.
  destruct (keep a); simpl; [|auto].
  constructor; [|auto].
  intros Hin. apply Hn. apply in_map_iff in Hin. destruct Hin as [x [Hx Hin]].
  apply filter_In in Hin. apply in_map_iff. exists x. detach; tauto.
Qed.

(** *** Resetting a password *)

Lemma reset_store_wf env data rt user st :
  wf_store st -> wf_store (reset_store env data rt user st).
Proof.
  intros [H1 H2 H3 H4 H5 H6 H7 H8 H9].
  assert (Hids : map user_id (users (reset_store env data rt user st))
                 = map user_id (users st)).
  { simpl. apply map_map_same. intros x. now destruct (has_id _ x). }
  constructor; try rewrite Hids.
  - assumption.
  - simpl. rewrite map_map_same; [assumption|]. intros x. now destruct (has_id _ x).
  - simpl. intros u Hu. apply in_map_iff in Hu. destruct Hu as [x [<- Hx]].
    destruct (has_id _ x); simpl; auto.
  - simpl. now apply NoDup_map_filter.
  - simpl. now apply NoDup_map_filter.
  - simpl. intros s Hs. apply filter_In in Hs. apply H6. detach; tauto.
  - simpl. rewrite map_map_same; [assumption|]. intros x. now destruct (_ =? _).
  - simpl. rewrite map_map_same; [assumption|]. intros x. now destruct (_ =? _).
  - simpl. intros r Hr. apply in_map_iff in Hr. destruct Hr as [x [<- Hx]].
    destruct (_ =? _); simpl; auto.
Qed.

(** [reset_password] inside its session, case by case. *)
Lemma reset_password_cases env st data :
  with_get_db st (reset_password env data) =
  match find (is_consumable (Schemas.rp_token data) (utcnow env))
             (password_reset_tokens st) with
  | None => refused InvalidOrExpired st
  | Some rt =>
      match find (has_id (reset_user_id rt)) (users st) with
      | None => refused UserNotFound st
      | Some user =>
          if constraints_ok (reset_store env data rt user st)
          then {| response := reset_password_ok;
                  store := reset_store env data rt user st;
                  mail := [] |}
          else refused IntegrityError st
      end
  end.
Proof.
  unfold with_get_db, reset_password, bind.
  rewrite query_up by reflexivity. cbn [txn SessionLocal].
  destruct (find _ (password_reset_tokens st)) as [rt|]; [|reflexivity].
  rewrite query_up by reflexivity. cbn [txn SessionLocal].
  destruct (find _ (users st)) as [user|]; [|reflexivity].
  unfold stage, execute, commit, ret. simpl.
  fold (reset_store env data rt user st).
  destruct (constraints_ok _); reflexivity.
Qed.

(** *** Request validation *)

(** A password breaks the policy when it misses one of the four conditions. *)
Lemma policy_conforming_false_iff v :
  Schemas.policy_conforming v = false
  <-> (len v < 10 \/ any isupper v = false \/ any islower v = false
       \/ any isdigit v = false).
Proof.
  unfold Schemas.policy_conforming.
  rewrite !andb_false_iff, Z.leb_gt. detach; tauto.
Qed.

Lemma validate_password_accepts v :
  Schemas.policy_conforming v = true ->
  Schemas.validate_password v = Schemas.Accept v.
Proof.
  unfold Schemas.policy_conforming, Schemas.validate_password.
  rewrite !andb_true_iff, Z.leb_le. intros [[[Hl Hu] Hlo] Hd].
  apply Z.ltb_ge in Hl. now rewrite Hl, Hu, Hlo, Hd.
Qed.

Lemma validate_password_rejects v :
  Schemas.policy_conforming v = false ->
  exists msg, Schemas.validate_password v = Schemas.ValueError msg.
Proof.
  unfold Schemas.policy_conforming, Schemas.validate_password.
  intros H.
  destruct (len v <? 10) eqn:Hl; [eauto|].
  destruct (any isupper v); simpl; [|eauto].
  destruct (any islower v); simpl; [|eauto].
  destruct (any isdigit v); simpl; [|eauto].
  apply Z.ltb_ge, Z.leb_le in Hl. rewrite Hl in H. discriminate.
Qed.

Lemma validate_vysus_email_rejects v :
  endswith (lower v) "@vysusgroup.com" = false ->
  Schemas.validate_vysus_email v
  = Schemas.ValueError "Only @vysusgroup.com emails are allowed".
Proof. unfold Schemas.validate_vysus_email. now intros ->. Qed.

Lemma post_register_bad_email env st body :
  endswith (lower (Schemas.uc_email body)) "@vysusgroup.com" = false ->
  exists errors,
    errors <> [] /\
    post_register env st body = refused (RequestValidationError errors) st.
Proof.
  intros H. unfold post_register, Schemas.UserCreate_validate.
  rewrite (validate_vysus_email_rejects _ H).
  eexists. split; [|reflexivity]. simpl. discriminate.
Qed.

Lemma post_register_bad_password env st body :
  Schemas.policy_conforming (Schemas.uc_password body) = false ->
  exists errors,
    errors <> [] /\
    post_register env st body = refused (RequestValidationError errors) st.
Proof.
  intros H. unfold post_register, Schemas.UserCreate_validate.
  destruct (validate_password_rejects _ H) as [msg ->].
  destruct (Schemas.validate_vysus_email _);
    (eexists; split; [|reflexivity]); simpl; discriminate.
Qed.

Lemma post_reset_password_bad_password env st body :
  Schemas.policy_conforming (Schemas.rp_new_password body) = false ->
  exists errors,
    errors <> [] /\
    post_reset_password env st body = refused (RequestValidationError errors) st.
Proof.
  intros H. unfold post_reset_password, Schemas.ResetPasswordRequest_validate.
  destruct (validate_password_rejects _ H) as [msg ->].
  eexists. split; [|reflexivity]. simpl. discriminate.
Qed.

Lemma post_reset_password_good_password env st body :
  Schemas.policy_conforming (Schemas.rp_new_password body) = true ->
  post_reset_password env st body = with_get_db st (reset_password env body).
Proof.
  intros H. unfold post_reset_password, Schemas.ResetPasswordRequest_validate.
  rewrite (validate_password_accepts _ H). now destruct body.
Qed.

(** C8.  Registration with an e-mail that does not end in the approved
    domain suffix fails with a validation error and creates no account;
    a password that misses any of the four conditions (ten characters,
    an uppercase letter, a lowercase letter, a digit) makes both
    registration and password reset fail with a validation error. *)
Theorem validation_enforces_domain_and_password_policy env st :
  (forall body,
     endswith (lower (Schemas.uc_email body)) "@vysusgroup.com" = false ->
     exists errors,
       is_ValidationError (RequestValidationError errors) /\
       post_register env st body = refused (RequestValidationError errors) st /\
       users (store (post_register env st body)) = users st) /\
  (forall v,
     len v < 10 \/ any isupper v = false \/ any islower v = false
     \/ any isdigit v = false ->
     (forall body,
        Schemas.uc_password body = v ->
        exists errors,
          errors <> [] /\
          post_register env st body = refused (RequestValidationError errors) st) /\
     (forall body,
        Schemas.rp_new_password body = v ->
        exists errors,
          errors <> [] /\
          post_reset_password env st body
          = refused (RequestValidationError errors) st)).
Proof.
  split.
  - intros body H.
    destruct (post_register_bad_email env st body H) as [errors [Hne ->]].
    exists errors. repeat split. exists errors. now split.
  - intros v Hv. apply policy_conforming_false_iff in Hv. split.
    + intros body <-. now apply post_register_bad_password.
    + intros body <-. now apply post_reset_password_bad_password.
Qed.

(** *** Consuming a reset token *)

Lemma find_all_false {A} (p : A -> bool) (l : list A) :
  (forall x, In x l -> p x = false) -> find p l = None.
Proof.
  intros H. destruct (find p l) as [x|] eqn:E; [|reflexivity].
  destruct (find_some _ _ E) as [Hin Hp]. rewrite (H x Hin) in Hp. discriminate.
Qed.

Lemma is_consumable_iff token now r :
  is_consumable token now r = true
  <-> reset_token r = token /\ used r = Some false /\ now < reset_expires_at r.
Proof.
  unfold is_consumable, sql_is.
  rewrite !andb_true_iff, String.eqb_eq, Z.ltb_lt.
  destruct (used r) as [[|]|]; simpl; detach; intuition congruence.
Qed.

Lemma find_consumable st token now rt :
  wf_store st ->
  In rt (password_reset_tokens st) ->
  reset_token rt = token -> used rt = Some false -> now < reset_expires_at rt ->
  find (is_consumable token now) (password_reset_tokens st) = Some rt.
Proof.
  intros Hwf Hin Ht Hu He.
  apply (find_by_key reset_token); auto.
  - apply (wf_reset_token _ Hwf).
  - now apply is_consumable_iff.
  - intros y _ Hy. apply is_consumable_iff in Hy. destruct Hy. congruence.
Qed.

Lemma find_owner st rt :
  wf_store st ->
  In rt (password_reset_tokens st) ->
  exists u, find (has_id (reset_user_id rt)) (users st) = Some u /\
            In u (users st) /\ user_id u = reset_user_id rt.
Proof.
  intros Hwf Hin.
  pose proof (wf_reset_fk _ Hwf rt Hin) as Hfk.
  apply in_map_iff in Hfk. destruct Hfk as [u [Hid Hu]].
  destruct (find_exists (has_id (reset_user_id rt)) (users st)) as [u' Hu'].
  { exists u. split; [assumption|]. unfold has_id. now apply Z.eqb_eq. }
  exists u'. destruct (find_some _ _ Hu') as [Hin' Hp].
  unfold has_id in Hp. apply Z.eqb_eq in Hp. now repeat split.
Qed.

(** With a consumable token on a well-formed store the reset goes through. *)
Lemma reset_password_consumes env st data rt :
  wf_store st ->
  In rt (password_reset_tokens st) ->
  reset_token rt = Schemas.rp_token data ->
  used rt = Some false ->
  utcnow env < reset_expires_at rt ->
  exists user,
    In user (users st) /\ user_id user = reset_user_id rt /\
    with_get_db st (reset_password env data)
    = {| response := reset_password_ok;
         store := reset_store env data rt user st;
         mail := [] |}.
Proof.
  intros Hwf Hin Ht Hu He.
  rewrite reset_password_cases.
  rewrite (find_consumable _ _ _ _ Hwf Hin Ht Hu He).
  destruct (find_owner _ _ Hwf Hin) as [user [-> [Huin Hid]]].
  exists user. repeat split; try assumption.
  assert (Hok : constraints_ok (reset_store env data rt user st) = true)
    by (apply constraints_ok_iff; now apply reset_store_wf).
  now rewrite Hok.
Qed.

(** What is left of the sessions, the digest and the token afterwards. *)
Lemma reset_store_sessions env data rt user st s :
  In s (sessions (reset_store env data rt user st))
  <-> In s (sessions st) /\ session_user_id s <> user_id user.
Proof.
  simpl. rewrite filter_In, negb_true_iff, Z.eqb_neq. detach; tauto.
Qed.

Lemma reset_store_resolves_none env data rt user st env' s :
  wf_store st ->
  In s (sessions st) -> session_user_id s = user_id user ->
  resolve_session env' (reset_store env data rt user st) (session_token s)
  = Return None.
Proof.
  intros Hwf Hin Hown. unfold resolve_session.
  rewrite get_current_user_from_cookie_up by reflexivity.
  cbn [fst txn SessionLocal].
  destruct (negb (truthy (session_token s))); [reflexivity|].
  rewrite find_all_false; [reflexivity|].
  intros s' Hs'. apply reset_store_sessions in Hs'. destruct Hs' as [Hin' Hne].
  destruct (session_is_valid _ _ s') eqn:E; [|reflexivity].
  apply session_is_valid_iff in E. destruct E as [Htok _].
  assert (s' = s).
  { apply (NoDup_map_inj session_token (sessions st)); auto.
    apply (wf_session_token _ Hwf). }
  subst s'. congruence.
Qed.

Lemma reset_store_digest env data rt user st u' :
  In u' (users (reset_store env data rt user st)) ->
  user_id u' = user_id user ->
  hashed_password u' = hash_password (salt env) (Schemas.rp_new_password data).
Proof.
  simpl. intros Hin Hid. apply in_map_iff in Hin. destruct Hin as [x [Hx Hin]].
  destruct (has_id (user_id user) x) eqn:E; subst u'; [reflexivity|].
  unfold has_id in E. apply Z.eqb_neq in E. contradiction.
Qed.

Lemma reset_store_account env data rt user st :
  In user (users st) ->
  In (with_password (hash_password (salt env) (Schemas.rp_new_password data))
                    (utcnow env) user)
     (users (reset_store env data rt user st)).
Proof.
  intros Hin. simpl. apply in_map_iff. exists user. split; [|assumption].
  unfold has_id. now rewrite Z.eqb_refl.
Qed.

Lemma reset_store_token_used env data rt user st r :
  wf_store st ->
  In rt (password_reset_tokens st) ->
  In r (password_reset_tokens (reset_store env data rt user st)) ->
  reset_token r = reset_token rt ->
  used r = Some true.
Proof.
  simpl. intros Hwf Hrt Hin Htok. apply in_map_iff in Hin.
  destruct Hin as [x [Hx Hin]].
  destruct (reset_id x =? reset_id rt) eqn:E; subst r; [reflexivity|].
  assert (x = rt).
  { apply (NoDup_map_inj reset_token (password_reset_tokens st)); auto.
    apply (wf_reset_token _ Hwf). }
  subst x. rewrite Z.eqb_refl in E. discriminate.
Qed.

Lemma reset_store_not_consumable env data rt user st token now :
  wf_store st ->
  In rt (password_reset_tokens st) ->
  reset_token rt = token ->
  find (is_consumable token now)
       (password_reset_tokens (reset_store env data rt user st)) = None.
Proof.
  intros Hwf Hrt Htok. apply find_all_false. intros r Hr.
  destruct (is_consumable token now r) eqn:E; [|reflexivity].
  apply is_consumable_iff in E. destruct E as [Ht [Hu _]].
  rewrite (reset_store_token_used env data rt user st r Hwf Hrt Hr) in Hu;
    congruence.
Qed.

(** [reset_password] sends exactly [reset_statements], in that order. *)
Lemma reset_password_is_its_statements env data w :
  reset_password env data w = reset_password_by_statements env data w.
Proof.
  unfold reset_password, reset_password_by_statements, bind, query.
  destruct (reachable w) eqn:Hup; [|reflexivity].
  destruct (find _ (password_reset_tokens (txn w))) as [rt|]; [|reflexivity].
  rewrite Hup.
  destruct (find _ (users (txn w))) as [user|]; [|reflexivity].
  unfold reset_statements, run_all, bind, stage, execute, commit, ret.
  cbn [reachable txn database outbox]. rewrite Hup.
  destruct (constraints_ok _); reflexivity.
Qed.

(** Before the last of its statements, the commit, nothing that
    [reset_password] sends reaches the committed database. *)
Lemma reset_statements_commit_last env data rt user k w :
  (k < 4)%nat ->
  database (snd (interrupted k (reset_statements env data rt user) w)) = database w.
Proof.
  intros Hk. unfold interrupted, reset_statements.
  destruct k as [|[|[|[|k]]]]; try lia;
    cbn [List.length Nat.ltb Nat.leb firstn run_all];
    unfold bind, stage, execute, raise, ret; cbn [reachable database txn outbox];
    destruct (reachable w); reflexivity.
Qed.

(** C1 (as amended).  A password reset is all or nothing.  When the
    token is consumable and the new password conforms to the policy, the
    call succeeds and removes every session row of the owning account
    (so none of their tokens resolves any more), replaces the account's
    digest by the digest of the new password, and marks the token used.
    The new password verifies, provided the primitive verifies a
    password against its own digest; any other password, the old one
    included, verifies afterwards exactly if the primitive verifies it
    against the new digest.  The three writes are statements of one
    transaction that is committed once, by the last statement: a call
    that does not succeed leaves the store untouched, and so does a run
    that loses the database after any number of statements short of the
    commit. *)
Theorem reset_password_all_or_nothing env st body :
  (forall s p, verify_password p (hash_password s p) = true) ->
  wf_store st ->
  let out := post_reset_password env st body in
  let digest := hash_password (salt env) (Schemas.rp_new_password body) in
  (response out <> reset_password_ok -> store out = st) /\
  (response out = reset_password_ok ->
   Schemas.policy_conforming (Schemas.rp_new_password body) = true /\
   exists rt, In rt (password_reset_tokens st) /\
              reset_token rt = Schemas.rp_token body /\
              used rt = Some false /\ utcnow env < reset_expires_at rt) /\
  (forall w, reset_password env body w = reset_password_by_statements env body w) /\
  (forall rt user k w,
     (k < 4)%nat ->
     database (snd (interrupted k (reset_statements env body rt user) w))
     = database w) /\
  (forall rt,
     Schemas.policy_conforming (Schemas.rp_new_password body) = true ->
     In rt (password_reset_tokens st) ->
     reset_token rt = Schemas.rp_token body ->
     used rt = Some false ->
     utcnow env < reset_expires_at rt ->
     response out = reset_password_ok /\
     (forall s, In s (sessions (store out))
                <-> In s (sessions st) /\ session_user_id s <> reset_user_id rt) /\
     (forall env' s,
        In s (sessions st) -> session_user_id s = reset_user_id rt ->
        resolve_session env' (store out) (session_token s) = Return None) /\
     (exists u, In u (users st) /\ user_id u = reset_user_id rt /\
                In (with_password digest (utcnow env) u) (users (store out)) /\
                forall k, (4 <= k)%nat ->
                  database (snd (interrupted k (reset_statements env body rt u)
                                   (SessionLocal st true)))
                  = store out) /\
     (forall u', In u' (users (store out)) -> user_id u' = reset_user_id rt ->
                 hashed_password u' = digest /\
                 verify_password (Schemas.rp_new_password body) (hashed_password u')
                 = true /\
                 forall p, verify_password p (hashed_password u')
                           = verify_password p digest) /\
     In (with_used (Some true) rt) (password_reset_tokens (store out)) /\
     (forall r, In r (password_reset_tokens (store out)) ->
                reset_token r = Schemas.rp_token body -> used r = Some true)).
Proof.
  intros Hcomplete Hwf out digest. subst out.
  split; [|split; [|split; [|split]]].
  - destruct (Schemas.policy_conforming (Schemas.rp_new_password body)) eqn:Hpol.
    + rewrite (post_reset_password_good_password _ _ _ Hpol), reset_password_cases.
      destruct (find _ (password_reset_tokens st)) as [rt|]; [|reflexivity].
      destruct (find _ (users st)) as [user|]; [|reflexivity].
      destruct (constraints_ok _); [|reflexivity].
      intros H. now contradiction H.
    + destruct (post_reset_password_bad_password env st body Hpol)
        as [errors [Hne ->]]. reflexivity.
  - destruct (Schemas.policy_conforming (Schemas.rp_new_password body)) eqn:Hpol.
    + rewrite (post_reset_password_good_password _ _ _ Hpol), reset_password_cases.
      destruct (find _ (password_reset_tokens st)) as [rt|] eqn:E; [|discriminate].
      intros _. split; [reflexivity|].
      destruct (find_some _ _ E) as [Hin Hc]. apply is_consumable_iff in Hc.
      exists rt. detach; tauto.
    + destruct (post_reset_password_bad_password env st body Hpol)
        as [errors [Hne ->]]. discriminate.
  - apply reset_password_is_its_statements.
  - intros rt user k w. apply reset_statements_commit_last.
  - intros rt Hpol Hin Htok Hused Hexp.
    rewrite (post_reset_password_good_password _ _ _ Hpol).
    destruct (reset_password_consumes env st body rt Hwf Hin Htok Hused Hexp)
      as [user [Huin [Hid ->]]].
    cbn [response store]. rewrite <- Hid.
    split; [reflexivity|].
    split; [intros s; apply reset_store_sessions|].
    split; [intros env' s; now apply reset_store_resolves_none|].
    split.
    { exists user. split; [assumption|]. split; [reflexivity|].
      split; [now apply reset_store_account|].
      intros k Hk. unfold interrupted.
      assert (Hlt : (k <? List.length (reset_statements env body rt user))%nat = false)
        by (apply Nat.ltb_ge; exact Hk).
      rewrite Hlt. unfold reset_statements, run_all, bind, stage, execute, commit, ret.
      cbn [SessionLocal reachable txn database outbox].
      fold (reset_store env body rt user st).
      now rewrite (proj2 (constraints_ok_iff _)
                     (reset_store_wf env body rt user st Hwf)). }
    split.
    { intros u' Hu' Hid'.
      assert (Hd : hashed_password u' = digest)
        by exact (reset_store_digest env body rt user st u' Hu' Hid').
      rewrite Hd. split; [reflexivity|]. split; [apply Hcomplete | reflexivity]. }
    split.
    { simpl. apply in_map_iff. exists rt. split; [|assumption].
      now rewrite Z.eqb_refl. }
    intros r Hr Hrtok.
    apply (reset_store_token_used env body rt user st r Hwf Hin Hr). congruence.
Qed.

(** C2.  A reset token works once.  With a consumable token and
    policy-conforming passwords, the first [reset_password] succeeds and
    a second one with the same token fails with InvalidOrExpired and
    leaves the whole store, digests and sessions included, as the first
    call left it. *)
Theorem reset_token_is_single_use env1 env2 st body1 body2 rt :
  wf_store st ->
  Schemas.policy_conforming (Schemas.rp_new_password body1) = true ->
  Schemas.policy_conforming (Schemas.rp_new_password body2) = true ->
  Schemas.rp_token body2 = Schemas.rp_token body1 ->
  In rt (password_reset_tokens st) ->
  reset_token rt = Schemas.rp_token body1 ->
  used rt = Some false ->
  utcnow env1 < reset_expires_at rt ->
  let first := post_reset_password env1 st body1 in
  let second := post_reset_password env2 (store first) body2 in
  response first = reset_password_ok /\
  response second = render_exn InvalidOrExpired /\
  store second = store first.
Proof.
  intros Hwf Hp1 Hp2 Hsame Hin Htok Hused Hexp first second.
  subst first second.
  rewrite (post_reset_password_good_password _ _ _ Hp1).
  destruct (reset_password_consumes env1 st body1 rt Hwf Hin Htok Hused Hexp)
    as [user [Huin [Hid ->]]].
  cbn [response store].
  rewrite (post_reset_password_good_password _ _ _ Hp2), reset_password_cases.
  rewrite (reset_store_not_consumable env1 body1 rt user st _ _ Hwf Hin);
    [|congruence].
  repeat split.
Qed.

(** C7 (as amended).  [new_password] is validated before the token is
    looked up: a password that violates the policy fails with a
    validation error whatever the token, and InvalidOrExpired is the
    answer for a token that is not consumable (unknown, used or expired)
    when the password conforms.  Neither failure changes the store. *)
Theorem reset_password_validates_before_token_lookup env st body :
  (Schemas.policy_conforming (Schemas.rp_new_password body) = false ->
   exists errors,
     is_ValidationError (RequestValidationError errors) /\
     post_reset_password env st body
     = refused (RequestValidationError errors) st) /\
  (Schemas.policy_conforming (Schemas.rp_new_password body) = true ->
   (forall r, In r (password_reset_tokens st) ->
              reset_token r = Schemas.rp_token body ->
              used r <> Some false \/ reset_expires_at r <= utcnow env) ->
   post_reset_password env st body = refused InvalidOrExpired st).
Proof.
  split.
  - intros Hpol.
    destruct (post_reset_password_bad_password env st body Hpol)
      as [errors [Hne ->]].
    exists errors. split; [|reflexivity]. exists errors. now split.
  - intros Hpol Hnot.
    rewrite (post_reset_password_good_password _ _ _ Hpol), reset_password_cases.
    rewrite find_all_false; [reflexivity|].
    intros r Hr. destruct (is_consumable _ _ r) eqn:E; [|reflexivity].
    apply is_consumable_iff in E. destruct E as [Ht [Hu He]].
    destruct (Hnot r Hr Ht) as [H|H]; [contradiction | lia].
Qed.

(** *** Asking for a reset link *)

Lemma py_truthy_iff v : py_truthy v = true <-> v = Some true.
Proof. destruct v as [[|]|]; simpl; split; congruence. Qed.

Lemma NoDup_map_snoc {A B} (f : A -> B) (l : list A) (x : A) :
  NoDup (map f l) -> ~ In (f x) (map f l) -> NoDup (map f (l ++ [x])).
Proof.
  intros Hnd Hfresh. rewrite map_app. simpl.
  apply NoDup_app; [assumption | repeat constructor; auto |].
  intros y Hy [<- | []]. contradiction.
Qed.

Lemma retire_keeps id r :
  reset_id (retire id r) = reset_id r /\
  reset_user_id (retire id r) = reset_user_id r /\
  reset_token (retire id r) = reset_token r /\
  reset_expires_at (retire id r) = reset_expires_at r.
Proof. unfold retire. now destruct (unused_of id r). Qed.

Lemma retire_not_unused id r : unused_of id (retire id r) = false.
Proof.
  unfold retire. destruct (unused_of id r) eqn:E; [|assumption].
  unfold unused_of. simpl. apply andb_false_r.
Qed.

Lemma forgot_store_wf env user st :
  wf_store st ->
  In user (users st) ->
  ~ In (uuid4 env) (map reset_id (password_reset_tokens st)) ->
  ~ In (token_urlsafe env) (map reset_token (password_reset_tokens st)) ->
  wf_store (forgot_store env user st).
Proof.
  intros [H1 H2 H3 H4 H5 H6 H7 H8 H9] Hu Hid Htok.
  constructor; simpl; try assumption.
  - apply NoDup_map_snoc; rewrite map_map_same;
      auto; intros x; apply retire_keeps.
  - apply NoDup_map_snoc; rewrite map_map_same;
      auto; intros x; apply retire_keeps.
  - intros r Hr. apply in_app_iff in Hr. destruct Hr as [Hr | [<- | []]].
    + apply in_map_iff in Hr. destruct Hr as [x [<- Hx]].
      destruct (retire_keeps (user_id user) x) as [_ [-> _]]. auto.
    + simpl. now apply in_map.
Qed.

(** [forgot_password] inside its session, case by case. *)
Lemma forgot_password_cases env st body :
  post_forgot_password env st body =
  match find (has_email (lower (Schemas.fp_email body))) (users st) with
  | Some user =>
      if py_truthy (is_active user)
      then
        if constraints_ok (forgot_store env user st)
        then {| response := forgot_password_ack;
                store := forgot_store env user st;
                mail := if smtp_ok env then [reset_mail env user] else [] |}
        else refused IntegrityError st
      else {| response := forgot_password_ack; store := st; mail := [] |}
  | None => {| response := forgot_password_ack; store := st; mail := [] |}
  end.
Proof.
  unfold post_forgot_password, with_get_db, forgot_password, bind.
  rewrite query_up by reflexivity. cbn [txn SessionLocal].
  destruct (find _ (users st)) as [user|]; [|reflexivity].
  destruct (py_truthy _); [|reflexivity].
  unfold stage, execute, commit, try_except, send_password_reset_email, ret.
  simpl. fold (issued_reset_token env user). fold (forgot_store env user st).
  destruct (constraints_ok _); [|reflexivity].
  destruct (smtp_ok env); reflexivity.
Qed.

Lemma forgot_store_unused env user st :
  filter (unused_of (user_id user)) (password_reset_tokens (forgot_store env user st))
  = [issued_reset_token env user].
Proof.
  simpl. rewrite filter_app. simpl.
  unfold unused_of at 2. simpl. rewrite Z.eqb_refl. simpl.
  replace (filter _ (map _ _)) with (@nil PasswordResetToken); [reflexivity|].
  symmetry. induction (password_reset_tokens st) as [|r l IH]; simpl; [reflexivity|].
  now rewrite retire_not_unused.
Qed.

Lemma forgot_store_retires env user st r now :
  wf_store st ->
  ~ In (token_urlsafe env) (map reset_token (password_reset_tokens st)) ->
  In r (password_reset_tokens st) ->
  reset_user_id r = user_id user ->
  find (is_consumable (reset_token r) now)
       (password_reset_tokens (forgot_store env user st)) = None.
Proof.
  intros Hwf Hfresh Hr Hown. apply find_all_false. intros x Hx.
  destruct (is_consumable _ _ x) eqn:E; [|reflexivity].
  apply is_consumable_iff in E. destruct E as [Htok [Hused _]].
  simpl in Hx. apply in_app_iff in Hx. destruct Hx as [Hx | [<- | []]].
  - apply in_map_iff in Hx. destruct Hx as [y [<- Hy]].
    destruct (retire_keeps (user_id user) y) as [_ [_ [Hkeep _]]].
    assert (y = r).
    { apply (NoDup_map_inj reset_token (password_reset_tokens st)); auto.
      - apply (wf_reset_token _ Hwf).
      - congruence. }
    subst y. pose proof (retire_not_unused (user_id user) r) as Hn.
    unfold unused_of in Hn.
    destruct (retire_keeps (user_id user) r) as [_ [Hu _]].
    rewrite Hu, Hown, Z.eqb_refl, Hused in Hn. discriminate.
  - simpl in Htok. exfalso. apply Hfresh. unfold generate_password_reset_token in Htok.
    rewrite Htok. now apply in_map.
Qed.

(** C6.  [forgot_password] answers every e-mail, known, unknown or
    deactivated, with the same acknowledgment.  It writes only when an
    active account matches; then it adds one reset-token row after
    setting [used] on every unused token of that account, so the new row
    is the account's only unused token and none of the older links can
    be consumed any more. *)
Theorem forgot_password_retires_older_tokens env st body :
  wf_store st ->
  ~ In (uuid4 env) (map reset_id (password_reset_tokens st)) ->
  ~ In (token_urlsafe env) (map reset_token (password_reset_tokens st)) ->
  let out := post_forgot_password env st body in
  response out = forgot_password_ack /\
  ((forall u, In u (users st) -> user_email u = lower (Schemas.fp_email body) ->
              is_active u <> Some true) ->
   store out = st /\ mail out = []) /\
  (forall u,
     In u (users st) ->
     user_email u = lower (Schemas.fp_email body) ->
     is_active u = Some true ->
     users (store out) = users st /\
     sessions (store out) = sessions st /\
     password_reset_tokens (store out)
     = (map (retire (user_id u)) (password_reset_tokens st)
        ++ [issued_reset_token env u])%list /\
     filter (unused_of (user_id u)) (password_reset_tokens (store out))
     = [issued_reset_token env u] /\
     (forall r, In r (password_reset_tokens st) -> reset_user_id r = user_id u ->
        forall now,
          find (is_consumable (reset_token r) now)
               (password_reset_tokens (store out)) = None) /\
     (forall r env' body',
        In r (password_reset_tokens st) -> reset_user_id r = user_id u ->
        Schemas.rp_token body' = reset_token r ->
        Schemas.policy_conforming (Schemas.rp_new_password body') = true ->
        post_reset_password env' (store out) body'
        = refused InvalidOrExpired (store out))).
Proof.
  intros Hwf Hid Htok out. subst out.
  rewrite forgot_password_cases.
  split; [|split].
  - destruct (find _ (users st)) as [user|] eqn:E; [|reflexivity].
    destruct (py_truthy _); [|reflexivity].
    destruct (find_some _ _ E) as [Hin _].
    assert (Hok : constraints_ok (forgot_store env user st) = true)
      by (apply constraints_ok_iff; now apply forgot_store_wf).
    now rewrite Hok.
  - intros Hnone.
    destruct (find _ (users st)) as [user|] eqn:E; [|now split].
    destruct (find_some _ _ E) as [Hin Hmail]. apply has_email_iff in Hmail.
    destruct (py_truthy _) eqn:Ha; [|now split].
    apply py_truthy_iff in Ha. now destruct (Hnone user Hin Hmail).
  - intros u Hin Hmail Hact.
    rewrite (find_has_email _ _ _ Hwf Hin Hmail).
    apply py_truthy_iff in Hact. rewrite Hact.
    assert (Hok : constraints_ok (forgot_store env u st) = true)
      by (apply constraints_ok_iff; now apply forgot_store_wf).
    rewrite Hok. cbn [store].
    split; [reflexivity|]. split; [reflexivity|]. split; [reflexivity|].
    split; [apply forgot_store_unused|].
    split.
    + intros r Hr Hown now. now apply forgot_store_retires.
    + intros r env' body' Hr Hown Hsame Hpol.
      rewrite (post_reset_password_good_password _ _ _ Hpol), reset_password_cases.
      rewrite Hsame. now rewrite forgot_store_retires.
Qed.

(** *** The gate *)


(** [dispatch] on a protected path with a non-empty cookie, by what the
    lookup gives. *)
Lemma dispatch_protected env up st request token :
  is_public (path request) = false ->
  cookie_session_token request = Some token ->
  token <> "" ->
  dispatch env up st request =
  match fst (get_current_user_from_cookie env token (SessionLocal st up)) with
  | Return (Some user) => CallNext (Some user)
  | Return None => Respond redirect_to_login_clearing_cookie
  | Raise _ => Respond redirect_to_login
  end.
Proof.
  intros Hpub Hcookie Hne. unfold dispatch. rewrite Hpub, Hcookie.
  destruct (truthy token) eqn:Ht; [|apply truthy_false in Ht; contradiction].
  simpl. unfold try_except, bind.
  destruct (get_current_user_from_cookie env token (SessionLocal st up))
    as [[[user|]|e] w]; reflexivity.
Qed.

Lemma get_current_user_from_cookie_down env token w :
  reachable w = false -> token <> "" ->
  fst (get_current_user_from_cookie env token w) = Raise OperationalError.
Proof.
  intros Hdown Hne. unfold get_current_user_from_cookie.
  destruct (truthy token) eqn:Ht; [|apply truthy_false in Ht; contradiction].
  simpl. unfold bind, query. now rewrite Hdown.
Qed.

(** C5 (as amended).  On a protected path with a non-empty session
    cookie the gate lets the request through only with the account the
    cookie resolves to.  When the cookie resolves to no account the gate
    redirects to the login page and has the cookie deleted; when the
    lookup raises, the gate also redirects to the login page (it fails
    closed) but sends no cookie deletion. *)
Theorem gate_fails_closed env up st request token :
  is_public (path request) = false ->
  cookie_session_token request = Some token ->
  token <> "" ->
  let lookup := fst (get_current_user_from_cookie env token (SessionLocal st up)) in
  (forall g, dispatch env up st request = CallNext g ->
             exists user, g = Some user /\ lookup = Return (Some user)) /\
  (lookup = Return None ->
   dispatch env up st request = Respond redirect_to_login_clearing_cookie) /\
  (forall e, lookup = Raise e ->
             dispatch env up st request = Respond redirect_to_login) /\
  (up = false ->
   lookup = Raise OperationalError /\
   dispatch env up st request = Respond redirect_to_login) /\
  location redirect_to_login = Some "/login" /\
  cookies redirect_to_login = [] /\
  location redirect_to_login_clearing_cookie = Some "/login" /\
  cookies redirect_to_login_clearing_cookie = [DeleteCookie "session_token"].
Proof.
  intros Hpub Hcookie Hne lookup.
  rewrite (dispatch_protected env up st request token Hpub Hcookie Hne).
  fold lookup.
  split; [|split; [|split; [|split]]].
  - intros g. destruct lookup as [[user|]|e]; intros H; try discriminate.
    injection H as <-. now exists user.
  - now intros ->.
  - now intros e ->.
  - intros ->. subst lookup.
    rewrite get_current_user_from_cookie_down by (auto || reflexivity).
    now split.
  - repeat split.
Qed.

Lemma dispatch_public env up st request :
  is_public (path request) = true -> dispatch env up st request = CallNext None.
Proof. intros H. unfold dispatch. now rewrite H. Qed.




(* ================================================================ *)
(** ** Further properties of the endpoints *)

(** *** More on strings and lists *)

Lemma lower_char_idem c : lower_char (lower_char c) = lower_char c.
Proof. destruct c as [[] [] [] [] [] [] [] []]; reflexivity. Qed.

Lemma lower_idem s : lower (lower s) = lower s.
Proof.
  induction s as [|c s IH]; simpl; [reflexivity|].
  now rewrite lower_char_idem, IH.
Qed.


Lemma filter_all_false {A} (p : A -> bool) (l : list A) :
  (forall x, In x l -> p x = false) -> filter p l = [].
Proof.
  induction l as [|a l IH]; simpl; intros H; [reflexivity|].
  rewrite (H a (or_introl eq_refl)). apply IH. intros x Hx. apply H. now right.
Qed.

Lemma find_app_miss {A} (p : A -> bool) (l : list A) (x : A) :
  p x = false -> find p (l ++ [x]) = find p l.
Proof.
  intros Hx. induction l as [|a l IH]; simpl; [now rewrite Hx|].
  destruct (p a); [reflexivity | exact IH].
Qed.

Lemma find_app_last {A} (p : A -> bool) (l : list A) (x : A) :
  (forall y, In y l -> p y = false) -> p x = true -> find p (l ++ [x]) = Some x.
Proof.
  intros Hl Hx. induction l as [|a l IH]; simpl; [now rewrite Hx|].
  rewrite (Hl a (or_introl eq_refl)). apply IH. intros y Hy. apply Hl. now right.
Qed.

(** *** Registering *)

Lemma UserCreate_validate_accepts raw :
  endswith (lower (Schemas.uc_email raw)) "@vysusgroup.com" = true ->
  Schemas.policy_conforming (Schemas.uc_password raw) = true ->
  Schemas.UserCreate_validate raw
  = Return {| Schemas.uc_email := lower (Schemas.uc_email raw);
              Schemas.uc_password := Schemas.uc_password raw;
              Schemas.uc_full_name := Schemas.uc_full_name raw |}.
Proof.
  intros He Hp. unfold Schemas.UserCreate_validate, Schemas.validate_vysus_email.
  now rewrite He, (validate_password_accepts _ Hp).
Qed.

(** [register] inside its session, case by case. *)
Lemma register_cases env st data :
  with_get_db st (register env data) =
  match find (has_email (lower (Schemas.uc_email data))) (users st) with
  | Some _ => refused Conflict st
  | None =>
      if user_fits_columns (new_account env data)
      then
        if constraints_ok (register_store env data st)
        then {| response := registration_ok;
                store := register_store env data st;
                mail := [] |}
        else refused IntegrityError st
      else refused DataError st
  end.
Proof.
  unfold with_get_db, register, bind.
  rewrite query_up by reflexivity. cbn [txn SessionLocal].
  destruct (find _ (users st)); [reflexivity|].
  unfold stage, flush_new_user, commit, ret. simpl.
  fold (new_account env data). fold (register_store env data st).
  destruct (user_fits_columns _); [|reflexivity].
  destruct (constraints_ok _); reflexivity.
Qed.

Lemma register_store_wf env data st :
  wf_store st ->
  endswith (lower (Schemas.uc_email data)) "@vysusgroup.com" = true ->
  (forall u, In u (users st) -> user_email u <> lower (Schemas.uc_email data)) ->
  ~ In (uuid4 env) (map user_id (users st)) ->
  wf_store (register_store env data st).
Proof.
  intros [H1 H2 H3 H4 H5 H6 H7 H8 H9] Hcheck Hnew Hid.
  constructor; simpl; try assumption.
  - now apply NoDup_map_snoc.
  - apply NoDup_map_snoc; [assumption|]. simpl. intros Hin.
    apply in_map_iff in Hin. destruct Hin as [u [Hu Hin]]. now apply (Hnew u).
  - intros u Hu. apply in_app_iff in Hu. destruct Hu as [Hu | [<- | []]]; auto.
  - intros s Hs. rewrite map_app. apply in_or_app. left. auto.
  - intros r Hr. rewrite map_app. apply in_or_app. left. auto.
Qed.

Lemma lower_len s : len (lower s) = len s.
Proof.
  unfold len. f_equal. induction s as [|c s IH]; simpl; [reflexivity | now rewrite IH].
Qed.

(** A well-formed request for an address nobody holds, with an address
    and a name that fit their columns, goes through. *)
Lemma post_register_succeeds env st body :
  wf_store st ->
  endswith (lower (Schemas.uc_email body)) "@vysusgroup.com" = true ->
  Schemas.policy_conforming (Schemas.uc_password body) = true ->
  len (Schemas.uc_email body) <= 255 ->
  (forall name, Schemas.uc_full_name body = Some name -> len name <= 255) ->
  (forall u, In u (users st) -> user_email u <> lower (Schemas.uc_email body)) ->
  ~ In (uuid4 env) (map user_id (users st)) ->
  post_register env st body
  = {| response := registration_ok;
       store := (set_users (fun us =>
                   (us ++ [{| user_id := uuid4 env;
                              user_email := lower (Schemas.uc_email body);
                              hashed_password :=
                                hash_password (salt env) (Schemas.uc_password body);
                              full_name := Schemas.uc_full_name body;
                              is_active := Some true;
                              updated_at := None |}])%list) st);
       mail := [] |} /\
  wf_store (store (post_register env st body)).
Proof.
  intros Hwf He Hp Hmail Hname Hnew Hid. unfold post_register.
  rewrite (UserCreate_validate_accepts _ He Hp). cbn [with_body].
  rewrite register_cases. cbn [Schemas.uc_email]. rewrite lower_idem.
  rewrite (find_has_email_none _ _ Hnew).
  match goal with |- context [user_fits_columns ?u] =>
    assert (Hfits : user_fits_columns u = true) end.
  { unfold user_fits_columns, new_account, fits.
    cbn [user_email full_name Schemas.uc_email Schemas.uc_full_name].
    rewrite lower_idem, lower_len. apply andb_true_iff. split.
    - now apply Z.leb_le.
    - destruct (Schemas.uc_full_name body) as [name|]; [|reflexivity].
      apply Z.leb_le. now apply Hname. }
  rewrite Hfits.
  match goal with |- context [constraints_ok ?s] =>
    assert (Hwf' : wf_store s) end.
  { apply register_store_wf; cbn [Schemas.uc_email]; rewrite ?lower_idem; auto. }
  rewrite (proj2 (constraints_ok_iff _) Hwf'). cbn [store].
  split; [|exact Hwf'].
  unfold register_store, new_account. cbn [Schemas.uc_email Schemas.uc_password
    Schemas.uc_full_name]. now rewrite lower_idem.
Qed.


(** X2.  Registration for an address some account already holds, in
    whatever letter case it is typed, is refused with the 400 "An account
    with this email already exists" and writes nothing. *)
Theorem register_rejects_taken_email env st body u :
  endswith (lower (Schemas.uc_email body)) "@vysusgroup.com" = true ->
  Schemas.policy_conforming (Schemas.uc_password body) = true ->
  In u (users st) ->
  user_email u = lower (Schemas.uc_email body) ->
  post_register env st body = refused Conflict st.
Proof.
  intros He Hp Hin Hmail. unfold post_register.
  rewrite (UserCreate_validate_accepts _ He Hp). cbn [with_body].
  rewrite register_cases. cbn [Schemas.uc_email]. rewrite lower_idem.
  destruct (find_exists (has_email (lower (Schemas.uc_email body))) (users st))
    as [v ->]; [|reflexivity].
  exists u. split; [assumption | now apply has_email_iff].
Qed.

(** X3.  Registering the same address twice, the second time in any
    letter case and with any conforming password: when the first call's
    address and name fit their columns (255 characters) it succeeds, the
    second call is refused as a conflict, and one account with that
    address exists afterwards. *)
Theorem register_twice_conflicts env1 env2 st body1 body2 :
  wf_store st ->
  endswith (lower (Schemas.uc_email body1)) "@vysusgroup.com" = true ->
  Schemas.policy_conforming (Schemas.uc_password body1) = true ->
  len (Schemas.uc_email body1) <= 255 ->
  (forall name, Schemas.uc_full_name body1 = Some name -> len name <= 255) ->
  (forall u, In u (users st) -> user_email u <> lower (Schemas.uc_email body1)) ->
  ~ In (uuid4 env1) (map user_id (users st)) ->
  lower (Schemas.uc_email body2) = lower (Schemas.uc_email body1) ->
  Schemas.policy_conforming (Schemas.uc_password body2) = true ->
  let first := post_register env1 st body1 in
  let second := post_register env2 (store first) body2 in
  response first = registration_ok /\
  second = refused Conflict (store first) /\
  List.length
    (filter (has_email (lower (Schemas.uc_email body1))) (users (store second)))
  = 1%nat.
Proof.
  intros Hwf He Hp Hmail Hname Hnew Hid Hsame Hp2 first second. subst first second.
  destruct (post_register_succeeds env1 st body1 Hwf He Hp Hmail Hname Hnew Hid)
    as [Heq _].
  rewrite Heq. cbn [response store].
  split; [reflexivity|].
  assert (Hsecond : post_register env2
            (set_users (fun us =>
               (us ++ [{| user_id := uuid4 env1;
                          user_email := lower (Schemas.uc_email body1);
                          hashed_password :=
                            hash_password (salt env1) (Schemas.uc_password body1);
                          full_name := Schemas.uc_full_name body1;
                          is_active := Some true;
                          updated_at := None |}])%list) st) body2
          = refused Conflict
              (set_users (fun us =>
                 (us ++ [{| user_id := uuid4 env1;
                            user_email := lower (Schemas.uc_email body1);
                            hashed_password :=
                              hash_password (salt env1) (Schemas.uc_password body1);
                            full_name := Schemas.uc_full_name body1;
                            is_active := Some true;
                            updated_at := None |}])%list) st)).
  { unfold post_register.
    rewrite UserCreate_validate_accepts by (rewrite ?Hsame; assumption).
    cbn [with_body]. rewrite register_cases. cbn [Schemas.uc_email].
    rewrite lower_idem, Hsame. cbn [users set_users].
    rewrite find_app_last; [reflexivity | | apply String.eqb_refl].
    intros y Hy. unfold has_email. apply String.eqb_neq. now apply Hnew. }
  rewrite Hsecond. split; [reflexivity|].
  cbn [store refused users set_users]. rewrite filter_app.
  rewrite filter_all_false.
  - simpl. unfold has_email. simpl. now rewrite String.eqb_refl.
  - intros y Hy. unfold has_email. apply String.eqb_neq. now apply Hnew.
Qed.

(** *** Sessions: login, lookup, logout *)

Lemma find_app_only {A} (p : A -> bool) (l : list A) (x : A) :
  (forall y, In y l -> p y = false) ->
  find p (l ++ [x]) = if p x then Some x else None.
Proof.
  intros Hl. induction l as [|a l IH]; simpl; [reflexivity|].
  rewrite (Hl a (or_introl eq_refl)). apply IH. intros y Hy. apply Hl. now right.
Qed.

Lemma find_filter_agree {A} (p q : A -> bool) (l : list A) :
  (forall x, p x = true -> q x = true) -> find p (filter q l) = find p l.
Proof.
  intros Hpq. induction l as [|a l IH]; simpl; [reflexivity|].
  destruct (q a) eqn:Hq; simpl.
  - destruct (p a); [reflexivity | exact IH].
  - destruct (p a) eqn:Hp; [|exact IH]. rewrite (Hpq a Hp) in Hq. discriminate.
Qed.

Lemma filter_filter_same {A} (p : A -> bool) (l : list A) :
  filter p (filter p l) = filter p l.
Proof.
  induction l as [|a l IH]; simpl; [reflexivity|].
  destruct (p a) eqn:Hp; simpl; [rewrite Hp; now f_equal | exact IH].
Qed.

Lemma filter_all_true {A} (p : A -> bool) (l : list A) :
  (forall x, In x l -> p x = true) -> filter p l = l.
Proof.
  induction l as [|a l IH]; simpl; intros H; [reflexivity|].
  rewrite (H a (or_introl eq_refl)). f_equal. apply IH. intros x Hx. apply H. now right.
Qed.

(** The lookup a fresh session performs, spelled out. *)
Lemma resolve_session_eq env st token :
  resolve_session env st token =
  Return
    (if negb (truthy token) then None
     else match find (session_is_valid token (utcnow env)) (sessions st) with
          | None => None
          | Some s => find (user_is_active_with_id (session_user_id s)) (users st)
          end).
Proof.
  unfold resolve_session.
  now rewrite get_current_user_from_cookie_up by reflexivity.
Qed.

Lemma find_active_owner st u :
  wf_store st -> In u (users st) -> is_active u = Some true ->
  find (user_is_active_with_id (user_id u)) (users st) = Some u.
Proof.
  intros Hwf Hin Hact. apply (find_by_key user_id); auto.
  - apply (wf_user_pk _ Hwf).
  - now apply user_is_active_with_id_iff.
  - intros y _ Hy. apply user_is_active_with_id_iff in Hy. detach; tauto.
Qed.

Lemma login_store_wf env request user st :
  wf_store st ->
  In user (users st) ->
  ~ In (uuid4 env) (map session_id (sessions st)) ->
  ~ In (token_urlsafe env) (map session_token (sessions st)) ->
  wf_store (login_store env request user st).
Proof.
  intros [H1 H2 H3 H4 H5 H6 H7 H8 H9] Hu Hid Htok.
  constructor; simpl; try assumption.
  - now apply NoDup_map_snoc.
  - now apply NoDup_map_snoc.
  - intros s Hs. apply in_app_iff in Hs. destruct Hs as [Hs | [<- | []]]; auto.
    simpl. now apply in_map.
Qed.

(** Right credentials for an active account, and a session id and token
    no row carries yet: the login goes through. *)
Lemma post_login_succeeds env st request body u :
  wf_store st ->
  In u (users st) ->
  user_email u = lower (Schemas.ul_email body) ->
  verify_password (Schemas.ul_password body) (hashed_password u) = true ->
  is_active u = Some true ->
  ~ In (uuid4 env) (map session_id (sessions st)) ->
  ~ In (token_urlsafe env) (map session_token (sessions st)) ->
  post_login env st request body
  = {| response := login_ok env u;
       store := login_store env request u st;
       mail := [] |}.
Proof.
  intros Hwf Hin Hmail Hpw Hact Hid Htok.
  rewrite post_login_cases, (find_has_email _ _ _ Hwf Hin Hmail), Hpw, Hact.
  cbn [negb py_truthy].
  now rewrite (proj2 (constraints_ok_iff _)
                 (login_store_wf env request u st Hwf Hin Hid Htok)).
Qed.

Lemma login_store_sessions env request user st :
  sessions (login_store env request user st)
  = (sessions st ++ [issued_session env request user])%list.
Proof. reflexivity. Qed.

(** X4.  A login with the right password for an active account adds one
    session row for that account, carrying the minted token and expiring
    [session_expire_days] days after now; the response is the account
    with a [session_token] cookie holding that token, http-only,
    same-site lax, whose max-age is the lifetime of the row; accounts,
    reset tokens and the earlier sessions stay as they were. *)
Theorem login_creates_session env st request body u :
  wf_store st ->
  In u (users st) ->
  user_email u = lower (Schemas.ul_email body) ->
  verify_password (Schemas.ul_password body) (hashed_password u) = true ->
  is_active u = Some true ->
  ~ In (uuid4 env) (map session_id (sessions st)) ->
  ~ In (token_urlsafe env) (map session_token (sessions st)) ->
  let out := post_login env st request body in
  exists s c,
    sessions (store out) = (sessions st ++ [s])%list /\
    session_user_id s = user_id u /\
    session_token s = token_urlsafe env /\
    session_expires_at s = utcnow env + session_expire_days settings * 86400 /\
    response out = {| status := 200; content := JsonUser u;
                      cookies := [SetCookie c]; location := None |} /\
    key c = "session_token" /\
    value c = token_urlsafe env /\
    httponly c = true /\
    samesite c = "lax" /\
    max_age c = session_expires_at s - utcnow env /\
    users (store out) = users st /\
    password_reset_tokens (store out) = password_reset_tokens st.
Proof.
  intros Hwf Hin Hmail Hpw Hact Hid Htok out. subst out.
  rewrite (post_login_succeeds env st request body u Hwf Hin Hmail Hpw Hact Hid Htok).
  exists (issued_session env request u), (session_cookie (generate_session_token env)).
  cbn [store response]. repeat split.
  simpl. unfold get_session_expiry. lia.
Qed.

(** X5.  The token a successful login hands out resolves to the account
    at every moment before the row's expiry and to nothing from the
    expiry on. *)
Theorem login_session_resolves_until_expiry env st request body u :
  wf_store st ->
  In u (users st) ->
  user_email u = lower (Schemas.ul_email body) ->
  verify_password (Schemas.ul_password body) (hashed_password u) = true ->
  is_active u = Some true ->
  ~ In (uuid4 env) (map session_id (sessions st)) ->
  ~ In (token_urlsafe env) (map session_token (sessions st)) ->
  token_urlsafe env <> "" ->
  let out := post_login env st request body in
  forall env',
    (utcnow env' < utcnow env + session_expire_days settings * 86400 ->
     resolve_session env' (store out) (token_urlsafe env) = Return (Some u)) /\
    (utcnow env + session_expire_days settings * 86400 <= utcnow env' ->
     resolve_session env' (store out) (token_urlsafe env) = Return None).
Proof.
  intros Hwf Hin Hmail Hpw Hact Hid Htok Hne out env'. subst out.
  rewrite (post_login_succeeds env st request body u Hwf Hin Hmail Hpw Hact Hid Htok).
  cbn [store]. rewrite resolve_session_eq, login_store_sessions.
  destruct (truthy (token_urlsafe env)) eqn:Ht;
    [|apply truthy_false in Ht; contradiction].
  cbn [negb]. rewrite find_app_only.
  - unfold session_is_valid. cbn [issued_session session_token session_expires_at].
    unfold generate_session_token, get_session_expiry.
    rewrite String.eqb_refl. cbn [andb]. split; intros Hnow.
    + apply Z.ltb_lt in Hnow. rewrite Hnow.
      cbn [session_user_id]. f_equal.
      change (users (login_store env request u st)) with (users st).
      now apply find_active_owner.
    + apply Z.ltb_ge in Hnow. now rewrite Hnow.
  - intros y Hy. unfold session_is_valid.
    destruct (session_token y =? token_urlsafe env)%string eqn:E; [|reflexivity].
    apply String.eqb_eq in E. exfalso. apply Htok. rewrite <- E. now apply in_map.
Qed.

(** X6.  Whatever a login call does, every other session token resolves
    afterwards as it did before: sessions of one account, or of several,
    live side by side. *)
Theorem login_keeps_other_sessions env st request body env' token :
  token <> token_urlsafe env ->
  resolve_session env' (store (post_login env st request body)) token
  = resolve_session env' st token.
Proof.
  intros Hne. rewrite post_login_cases.
  destruct (find _ (users st)) as [user|]; [|reflexivity].
  destruct (negb (verify_password _ _)); [reflexivity|].
  destruct (negb (py_truthy _)); [reflexivity|].
  destruct (negb (constraints_ok _)); [reflexivity|].
  cbn [store]. rewrite !resolve_session_eq, login_store_sessions.
  rewrite find_app_miss; [reflexivity|].
  unfold session_is_valid. cbn [issued_session session_token].
  unfold generate_session_token.
  destruct (token_urlsafe env =? token)%string eqn:E; [|reflexivity].
  apply String.eqb_eq in E. now destruct Hne.
Qed.

Lemma logout_store_wf token st : wf_store st -> wf_store (logout_store token st).
Proof.
  intros [H1 H2 H3 H4 H5 H6 H7 H8 H9].
  constructor; simpl; try assumption.
  - now apply NoDup_map_filter.
  - now apply NoDup_map_filter.
  - intros s Hs. apply filter_In in Hs. apply H6. detach; tauto.
Qed.

(** [logout] inside its session, case by case. *)
Lemma post_logout_cases env st request :
  post_logout env st request =
  match cookie_session_token request with
  | Some token =>
      if truthy token
      then
        if constraints_ok (logout_store token st)
        then {| response := logout_ok; store := logout_store token st; mail := [] |}
        else refused IntegrityError st
      else {| response := logout_ok; store := st; mail := [] |}
  | None => {| response := logout_ok; store := st; mail := [] |}
  end.
Proof.
  unfold post_logout, with_get_db, logout, bind.
  destruct (cookie_session_token request) as [token|]; [|reflexivity].
  destruct (truthy token); [|reflexivity].
  unfold execute, commit, ret. simpl.
  fold (logout_store token st).
  destruct (constraints_ok _); reflexivity.
Qed.

Lemma post_logout_wf env st request token :
  wf_store st ->
  cookie_session_token request = Some token ->
  token <> "" ->
  post_logout env st request
  = {| response := logout_ok; store := logout_store token st; mail := [] |}.
Proof.
  intros Hwf Hc Hne. rewrite post_logout_cases, Hc.
  destruct (truthy token) eqn:Ht; [|apply truthy_false in Ht; contradiction].
  now rewrite (proj2 (constraints_ok_iff _) (logout_store_wf token st Hwf)).
Qed.

(** X7.  Logging out with a session cookie deletes the session rows that
    carry its token and nothing else: the token resolves to nothing
    afterwards, every other token resolves as before, accounts and reset
    tokens are untouched, and the response has the cookie deleted. *)
Theorem logout_deletes_the_session env st request token :
  wf_store st ->
  cookie_session_token request = Some token ->
  token <> "" ->
  let out := post_logout env st request in
  response out = logout_ok /\
  cookies (response out) = [DeleteCookie "session_token"] /\
  (forall s, In s (sessions (store out))
             <-> In s (sessions st) /\ session_token s <> token) /\
  (forall env', resolve_session env' (store out) token = Return None) /\
  (forall env' other, other <> token ->
     resolve_session env' (store out) other = resolve_session env' st other) /\
  users (store out) = users st /\
  password_reset_tokens (store out) = password_reset_tokens st.
Proof.
  intros Hwf Hc Hne out. subst out.
  rewrite (post_logout_wf env st request token Hwf Hc Hne). cbn [response store].
  split; [reflexivity|]. split; [reflexivity|]. split; [|split; [|split]].
  - intros s. simpl. unfold has_session_token.
    rewrite filter_In, negb_true_iff, String.eqb_neq. reflexivity.
  - intros env'. rewrite resolve_session_eq.
    destruct (negb (truthy token)); [reflexivity|].
    rewrite find_all_false; [reflexivity|].
    intros s Hs. simpl in Hs. apply filter_In in Hs. destruct Hs as [_ Hs].
    unfold has_session_token in Hs. apply negb_true_iff in Hs.
    unfold session_is_valid. now rewrite Hs.
  - intros env' other Hother. rewrite !resolve_session_eq.
    destruct (negb (truthy other)); [reflexivity|].
    simpl sessions. rewrite find_filter_agree; [reflexivity|].
    intros s Hs. apply session_is_valid_iff in Hs. destruct Hs as [Hs _].
    unfold has_session_token. apply negb_true_iff, String.eqb_neq. congruence.
  - split; reflexivity.
Qed.

(** X8.  Logout needs no session: without a cookie, or with an empty
    one, it writes nothing and still answers with the cookie deletion;
    and with any cookie a second logout changes nothing the first one
    left. *)
Theorem logout_is_idempotent env1 env2 st request :
  (cookie_session_token request = None \/ cookie_session_token request = Some "" ->
   post_logout env1 st request
   = {| response := logout_ok; store := st; mail := [] |}) /\
  (wf_store st ->
   let first := post_logout env1 st request in
   let second := post_logout env2 (store first) request in
   response first = logout_ok /\
   response second = logout_ok /\
   store second = store first).
Proof.
  split.
  - intros [Hc | Hc]; rewrite post_logout_cases, Hc; reflexivity.
  - intros Hwf first second. subst first second.
    destruct (cookie_session_token request) as [token|] eqn:Hc.
    + destruct (truthy token) eqn:Ht.
      * assert (Hne : token <> "") by (intros ->; discriminate).
        rewrite (post_logout_wf env1 st request token Hwf Hc Hne). cbn [response store].
        rewrite (post_logout_wf env2 _ request token
                   (logout_store_wf token st Hwf) Hc Hne).
        cbn [response store]. repeat split.
        unfold logout_store, set_sessions. simpl. now rewrite filter_filter_same.
      * rewrite !post_logout_cases, Hc, Ht. repeat split.
    + rewrite !post_logout_cases, Hc. repeat split.
Qed.

(** X9.  Logging in and then logging out with the cookie that login set
    brings the store back to what it was. *)
Theorem login_then_logout_restores_store env env2 st request request2 body u :
  wf_store st ->
  In u (users st) ->
  user_email u = lower (Schemas.ul_email body) ->
  verify_password (Schemas.ul_password body) (hashed_password u) = true ->
  is_active u = Some true ->
  ~ In (uuid4 env) (map session_id (sessions st)) ->
  ~ In (token_urlsafe env) (map session_token (sessions st)) ->
  token_urlsafe env <> "" ->
  cookie_session_token request2 = Some (token_urlsafe env) ->
  let logged_in := post_login env st request body in
  let logged_out := post_logout env2 (store logged_in) request2 in
  response logged_in = login_ok env u /\
  response logged_out = logout_ok /\
  store logged_out = st.
Proof.
  intros Hwf Hin Hmail Hpw Hact Hid Htok Hne Hc logged_in logged_out.
  subst logged_in logged_out.
  rewrite (post_login_succeeds env st request body u Hwf Hin Hmail Hpw Hact Hid Htok).
  cbn [response store].
  rewrite (post_logout_wf env2 _ request2 (token_urlsafe env)
             (login_store_wf env request u st Hwf Hin Hid Htok) Hc Hne).
  cbn [response store]. repeat split.
  unfold logout_store, login_store, set_sessions. cbn [users sessions password_reset_tokens].
  rewrite filter_app, filter_all_true.
  - cbn [filter has_session_token session_token]. unfold generate_session_token.
    unfold has_session_token. cbn [session_token].
    rewrite String.eqb_refl. cbn [negb]. rewrite app_nil_r. now destruct st.
  - intros s Hs. unfold has_session_token. apply negb_true_iff, String.eqb_neq.
    intros E. apply Htok. rewrite <- E. now apply in_map.
Qed.

(** X10.  An account that registration has just created (address and
    name within their 255 characters) can log in with the same address,
    in any letter case, and the same password, provided the primitive
    verifies a password against its own digest. *)
Theorem register_then_login env env2 st request body credentials :
  (forall s p, verify_password p (hash_password s p) = true) ->
  wf_store st ->
  endswith (lower (Schemas.uc_email body)) "@vysusgroup.com" = true ->
  Schemas.policy_conforming (Schemas.uc_password body) = true ->
  len (Schemas.uc_email body) <= 255 ->
  (forall name, Schemas.uc_full_name body = Some name -> len name <= 255) ->
  (forall u, In u (users st) -> user_email u <> lower (Schemas.uc_email body)) ->
  ~ In (uuid4 env) (map user_id (users st)) ->
  lower (Schemas.ul_email credentials) = lower (Schemas.uc_email body) ->
  Schemas.ul_password credentials = Schemas.uc_password body ->
  ~ In (uuid4 env2) (map session_id (sessions st)) ->
  ~ In (token_urlsafe env2) (map session_token (sessions st)) ->
  let registered := post_register env st body in
  let logged_in := post_login env2 (store registered) request credentials in
  response registered = registration_ok /\
  exists account,
    In account (users (store registered)) /\
    user_email account = lower (Schemas.uc_email body) /\
    response logged_in = login_ok env2 account /\
    (sessions (store logged_in)
     = sessions st ++ [issued_session env2 request account])%list.
Proof.
  intros Hcomplete Hwf He Hp Hmail Hname Hnew Hid Hsame Hpw Hsid Hstok
         registered logged_in.
  subst registered logged_in.
  destruct (post_register_succeeds env st body Hwf He Hp Hmail Hname Hnew Hid)
    as [Heq Hwf'].
  rewrite Heq in Hwf' |- *. cbn [response store] in Hwf' |- *.
  split; [reflexivity|].
  eexists. split; [cbn [users set_users]; apply in_or_app; right; left; reflexivity|].
  split; [reflexivity|].
  erewrite post_login_succeeds; try exact Hwf'.
  - split; reflexivity.
  - cbn [users set_users]. apply in_or_app. right. left. reflexivity.
  - cbn [user_email]. now rewrite Hsame.
  - cbn [hashed_password]. rewrite Hpw. apply Hcomplete.
  - reflexivity.
  - exact Hsid.
  - exact Hstok.
Qed.

(** *** Who gets through: [get_current_user] and the gate *)

(** [get_me] inside its session, case by case. *)
Lemma get_auth_me_cases env st request :
  get_auth_me env st request =
  match cookie_session_token request with
  | None => refused not_authenticated st
  | Some token =>
      if negb (truthy token) then refused not_authenticated st
      else
        match find (session_is_valid token (utcnow env)) (sessions st) with
        | None => refused invalid_session st
        | Some s =>
            match find (user_is_active_with_id (session_user_id s)) (users st) with
            | None => refused invalid_session st
            | Some user =>
                {| response := plain 200 (JsonUser user); store := st; mail := [] |}
            end
        end
  end.
Proof.
  unfold get_auth_me, with_get_db, get_me, get_current_user.
  destruct (cookie_session_token request) as [token|]; [|reflexivity].
  destruct (truthy token) eqn:Ht; [|reflexivity].
  cbn [negb]. unfold bind at 1 2.
  rewrite get_current_user_from_cookie_up by reflexivity.
  rewrite Ht. cbn [negb txn SessionLocal].
  destruct (find _ (sessions st)) as [s|]; [|reflexivity].
  destruct (find _ (users st)); reflexivity.
Qed.

(** X11.  [/api/auth/me] never writes.  It answers with an account
    exactly when the request carries a cookie that resolves to that
    account; without a cookie, or with an empty one, the answer is 401
    "Not authenticated", and with a cookie that resolves to nothing 401
    "Invalid or expired session". *)
Theorem get_me_requires_live_session env st request :
  store (get_auth_me env st request) = st /\
  (forall u,
     response (get_auth_me env st request) = plain 200 (JsonUser u)
     <-> exists token, cookie_session_token request = Some token /\
                       resolve_session env st token = Return (Some u)) /\
  (cookie_session_token request = None \/ cookie_session_token request = Some "" ->
   response (get_auth_me env st request) = render_exn not_authenticated) /\
  (forall token,
     cookie_session_token request = Some token -> token <> "" ->
     resolve_session env st token = Return None ->
     response (get_auth_me env st request) = render_exn invalid_session).
Proof.
  rewrite get_auth_me_cases.
  destruct (cookie_session_token request) as [token|].
  - assert (Hres := resolve_session_eq env st token).
    destruct (negb (truthy token)) eqn:Ht; rewrite ?Ht in Hres.
    + split; [reflexivity|]. split; [|split].
      * intros u. split; [discriminate|].
        intros [t [Ht' Hr]]. injection Ht' as <-. congruence.
      * reflexivity.
      * intros t Ht' Hne. injection Ht' as <-.
        apply negb_true_iff, truthy_false in Ht. contradiction.
    + assert (Hne : token <> "").
      { intros ->. discriminate. }
      destruct (find _ (sessions st)) as [s|] eqn:Hs; rewrite ?Hs in Hres.
      * destruct (find _ (users st)) as [user|] eqn:Hu; rewrite ?Hu in Hres.
        -- split; [reflexivity|]. split; [|split].
           ++ intros u. split.
              ** intros H. injection H as <-. now exists token.
              ** intros [t [Ht' Hr]]. injection Ht' as <-.
                 assert (user = u) by congruence. now subst.
           ++ intros [H | H]; [discriminate|]. injection H as ->. now destruct Hne.
           ++ intros t Ht' _ Hr. injection Ht' as <-. congruence.
        -- split; [reflexivity|]. split; [|split].
           ++ intros u. split; [discriminate|].
              intros [t [Ht' Hr]]. injection Ht' as <-. congruence.
           ++ intros [H | H]; [discriminate|]. injection H as ->. now destruct Hne.
           ++ reflexivity.
      * split; [reflexivity|]. split; [|split].
        -- intros u. split; [discriminate|].
           intros [t [Ht' Hr]]. injection Ht' as <-. congruence.
        -- intros [H | H]; [discriminate|]. injection H as ->. now destruct Hne.
        -- reflexivity.
  - split; [reflexivity|]. split; [|split].
    + intros u. split; [discriminate|]. intros [t [Ht' _]]. discriminate.
    + reflexivity.
    + intros t Ht'. discriminate.
Qed.

(** X12.  The gate hands a request on in two ways only: a public path,
    with no account attached, or a protected path whose cookie is
    non-empty and names an unexpired session row of an existing, active
    account, which is then the account attached. *)
Theorem gate_admits_only_live_sessions env up st request g :
  dispatch env up st request = CallNext g ->
  (is_public (path request) = true /\ g = None) \/
  (is_public (path request) = false /\
   exists token u s,
     cookie_session_token request = Some token /\ token <> "" /\
     g = Some u /\ up = true /\
     In u (users st) /\ is_active u = Some true /\
     In s (sessions st) /\ session_token s = token /\
     utcnow env < session_expires_at s /\ session_user_id s = user_id u).
Proof.
  destruct (is_public (path request)) eqn:Hpub.
  - rewrite (dispatch_public _ _ _ _ Hpub). intros H. injection H as <-. now left.
  - intros H. right. split; [reflexivity|].
    destruct (cookie_session_token request) as [token|] eqn:Hc;
      [|unfold dispatch in H; rewrite Hpub, Hc in H; discriminate].
    destruct (truthy token) eqn:Ht;
      [|unfold dispatch in H; rewrite Hpub, Hc, Ht in H; discriminate].
    assert (Hne : token <> "") by (intros ->; discriminate).
    rewrite (dispatch_protected env up st request token Hpub Hc Hne) in H.
    destruct up.
    + rewrite get_current_user_from_cookie_up in H by reflexivity.
      cbn [fst txn SessionLocal] in H. rewrite Ht in H. cbn [negb] in H.
      destruct (find _ (sessions st)) as [s|] eqn:Hs; [|discriminate].
      destruct (find _ (users st)) as [u|] eqn:Hu; [|discriminate].
      injection H as <-.
      destruct (find_some _ _ Hs) as [Hsin Hsv].
      apply session_is_valid_iff in Hsv. destruct Hsv as [Htok Hexp].
      destruct (find_some _ _ Hu) as [Huin Huv].
      apply user_is_active_with_id_iff in Huv. destruct Huv as [Hid Hact].
      exists token, u, s. repeat split; auto.
    + rewrite get_current_user_from_cookie_down in H by (auto || reflexivity).
      discriminate.
Qed.

(** X13.  A deactivated account is locked out at once: none of its
    session tokens resolves any more, and no login for its address
    succeeds or writes anything, whatever the password. *)
Theorem deactivated_account_is_locked_out env st u :
  wf_store st ->
  In u (users st) ->
  is_active u <> Some true ->
  (forall s, In s (sessions st) -> session_user_id s = user_id u ->
             resolve_session env st (session_token s) = Return None) /\
  (forall request body,
     user_email u = lower (Schemas.ul_email body) ->
     post_login env st request body = refused Unauthorized st \/
     post_login env st request body = refused Forbidden st).
Proof.
  intros Hwf Hin Hoff. split.
  - intros s Hs Hown. rewrite resolve_session_eq.
    destruct (negb (truthy (session_token s))); [reflexivity|].
    destruct (find _ (sessions st)) as [s'|] eqn:E; [|reflexivity].
    destruct (find_some _ _ E) as [Hs' Hv].
    apply session_is_valid_iff in Hv. destruct Hv as [Htok _].
    assert (s' = s).
    { apply (NoDup_map_inj session_token (sessions st)); auto.
      apply (wf_session_token _ Hwf). }
    subst s'. rewrite Hown. f_equal. apply find_all_false.
    intros y Hy. destruct (user_is_active_with_id (user_id u) y) eqn:Ey; [|reflexivity].
    apply user_is_active_with_id_iff in Ey. destruct Ey as [Hid Hact].
    assert (y = u).
    { apply (NoDup_map_inj user_id (users st)); auto. apply (wf_user_pk _ Hwf). }
    subst y. contradiction.
  - intros request body Hmail.
    rewrite post_login_cases, (find_has_email _ _ _ Hwf Hin Hmail).
    destruct (negb (verify_password _ _)); [now left|].
    destruct (py_truthy (is_active u)) eqn:Ha; [|now right].
    apply py_truthy_iff in Ha. contradiction.
Qed.





(** *** Request bodies *)

(** X15.  Building a [UserCreate] succeeds exactly when the lower-cased
    address ends in "@vysusgroup.com" and the password meets the policy;
    the model then holds the address in lower case, which is unchanged
    by a further lower-casing and passes the CHECK of [users.email], and
    the password and name as sent. *)
Theorem UserCreate_validate_accepts_iff raw data :
  (Schemas.UserCreate_validate raw = Return data
   <-> endswith (lower (Schemas.uc_email raw)) "@vysusgroup.com" = true /\
       Schemas.policy_conforming (Schemas.uc_password raw) = true /\
       data = {| Schemas.uc_email := lower (Schemas.uc_email raw);
                 Schemas.uc_password := Schemas.uc_password raw;
                 Schemas.uc_full_name := Schemas.uc_full_name raw |}) /\
  (Schemas.UserCreate_validate raw = Return data ->
   lower (Schemas.uc_email data) = Schemas.uc_email data /\
   endswith (Schemas.uc_email data) "@vysusgroup.com" = true /\
   Schemas.uc_password data = Schemas.uc_password raw /\
   Schemas.uc_full_name data = Schemas.uc_full_name raw).
Proof.
  assert (Hiff :
    Schemas.UserCreate_validate raw = Return data
    <-> endswith (lower (Schemas.uc_email raw)) "@vysusgroup.com" = true /\
        Schemas.policy_conforming (Schemas.uc_password raw) = true /\
        data = {| Schemas.uc_email := lower (Schemas.uc_email raw);
                  Schemas.uc_password := Schemas.uc_password raw;
                  Schemas.uc_full_name := Schemas.uc_full_name raw |}).
  { split.
    - intros H.
      destruct (endswith (lower (Schemas.uc_email raw)) "@vysusgroup.com") eqn:He.
      + destruct (Schemas.policy_conforming (Schemas.uc_password raw)) eqn:Hp.
        * rewrite (UserCreate_validate_accepts _ He Hp) in H.
          injection H as <-. now repeat split.
        * unfold Schemas.UserCreate_validate in H.
          destruct (validate_password_rejects _ Hp) as [msg Hmsg].
          rewrite Hmsg in H.
          destruct (Schemas.validate_vysus_email _); discriminate.
      + unfold Schemas.UserCreate_validate in H.
        rewrite (validate_vysus_email_rejects _ He) in H. discriminate.
    - intros [He [Hp ->]]. now apply UserCreate_validate_accepts. }
  split; [exact Hiff|].
  intros H. apply Hiff in H. destruct H as [He [Hp ->]].
  cbn [Schemas.uc_email Schemas.uc_password Schemas.uc_full_name].
  rewrite lower_idem. now repeat split.
Qed.

(** *** The reset link, from request to use *)

(** An active account and a fresh row id and token: the link is issued. *)
Lemma post_forgot_password_issues env st body u :
  wf_store st ->
  ~ In (uuid4 env) (map reset_id (password_reset_tokens st)) ->
  ~ In (token_urlsafe env) (map reset_token (password_reset_tokens st)) ->
  In u (users st) ->
  user_email u = lower (Schemas.fp_email body) ->
  is_active u = Some true ->
  post_forgot_password env st body
  = {| response := forgot_password_ack;
       store := forgot_store env u st;
       mail := if smtp_ok env then [reset_mail env u] else [] |}.
Proof.
  intros Hwf Hid Htok Hin Hmail Hact.
  rewrite forgot_password_cases, (find_has_email _ _ _ Hwf Hin Hmail), Hact.
  cbn [py_truthy].
  now rewrite (proj2 (constraints_ok_iff _)
                 (forgot_store_wf env u st Hwf Hin Hid Htok)).
Qed.

(** X16.  A failing mail transport changes neither the answer of
    [forgot_password] nor what it stores; it only leaves the message
    unsent.  A message that is sent goes to the stored address of an
    active account and carries the reset URL of the token row stored in
    the same call. *)
Theorem forgot_password_swallows_mail_failure env st body :
  let failing := post_forgot_password (with_smtp_ok false env) st body in
  let working := post_forgot_password (with_smtp_ok true env) st body in
  response failing = response working /\
  store failing = store working /\
  mail failing = [] /\
  (forall m, In m (mail working) ->
     mail working = [m] /\
     exists u,
       In u (users st) /\ is_active u = Some true /\
       user_email u = lower (Schemas.fp_email body) /\
       mail_to m = user_email u /\
       mail_reset_url m
       = base_url settings ++ "/reset-password?token=" ++ token_urlsafe env /\
       In {| reset_id := uuid4 env; reset_user_id := user_id u;
             reset_token := token_urlsafe env;
             reset_expires_at :=
               utcnow env + password_reset_expire_hours settings * 3600;
             used := Some false |}
          (password_reset_tokens (store working))).
Proof.
  intros failing working. subst failing working.
  rewrite !forgot_password_cases.
  destruct (find _ (users st)) as [user|] eqn:E.
  - destruct (find_some _ _ E) as [Hin Hmail]. apply has_email_iff in Hmail.
    destruct (py_truthy (is_active user)) eqn:Ha.
    + change (forgot_store (with_smtp_ok false env) user st)
        with (forgot_store env user st).
      change (forgot_store (with_smtp_ok true env) user st)
        with (forgot_store env user st).
      destruct (constraints_ok (forgot_store env user st)).
      * cbn [response store mail smtp_ok with_smtp_ok].
        split; [reflexivity|]. split; [reflexivity|]. split; [reflexivity|].
        intros m [<- | []]. split; [reflexivity|]. exists user.
        apply py_truthy_iff in Ha. repeat split; auto.
        simpl. apply in_or_app. right. now left.
      * cbn [response store mail refused].
        split; [reflexivity|]. split; [reflexivity|]. split; [reflexivity|].
        intros m [].
    + cbn [response store mail].
      split; [reflexivity|]. split; [reflexivity|]. split; [reflexivity|].
      intros m [].
  - cbn [response store mail].
    split; [reflexivity|]. split; [reflexivity|]. split; [reflexivity|].
    intros m [].
Qed.

(** X17.  The link [forgot_password] mails out can be consumed at every
    moment before [password_reset_expire_hours] hours have passed, and
    then sets the owner's digest; from that moment on it is refused as
    InvalidOrExpired and nothing is written. *)
Theorem forgot_then_reset_within_lifetime env env2 st body reset u :
  wf_store st ->
  ~ In (uuid4 env) (map reset_id (password_reset_tokens st)) ->
  ~ In (token_urlsafe env) (map reset_token (password_reset_tokens st)) ->
  In u (users st) ->
  user_email u = lower (Schemas.fp_email body) ->
  is_active u = Some true ->
  Schemas.rp_token reset = token_urlsafe env ->
  Schemas.policy_conforming (Schemas.rp_new_password reset) = true ->
  let asked := post_forgot_password env st body in
  let out := post_reset_password env2 (store asked) reset in
  (utcnow env2 < utcnow env + password_reset_expire_hours settings * 3600 ->
   response out = reset_password_ok /\
   (exists u', In u' (users (store out)) /\ user_id u' = user_id u) /\
   (forall u', In u' (users (store out)) -> user_id u' = user_id u ->
      hashed_password u'
      = hash_password (salt env2) (Schemas.rp_new_password reset))) /\
  (utcnow env + password_reset_expire_hours settings * 3600 <= utcnow env2 ->
   out = refused InvalidOrExpired (store asked)).
Proof.
  intros Hwf Hid Htok Hin Hmail Hact Hsame Hpol asked out. subst asked out.
  rewrite (post_forgot_password_issues env st body u Hwf Hid Htok Hin Hmail Hact).
  cbn [store].
  rewrite (post_reset_password_good_password _ _ _ Hpol).
  assert (Hwf' : wf_store (forgot_store env u st))
    by now apply forgot_store_wf.
  split.
  - intros Hnow.
    destruct (reset_password_consumes env2 (forgot_store env u st) reset
                (issued_reset_token env u) Hwf') as [user [Huin [Huid ->]]].
    + simpl. apply in_or_app. right. now left.
    + now rewrite Hsame.
    + reflexivity.
    + exact Hnow.
    + cbn [response store]. cbn [issued_reset_token reset_user_id] in Huid.
      split; [reflexivity|]. split.
      * eexists. split; [apply reset_store_account; exact Huin|]. exact Huid.
      * intros u' Hu' Hid'. apply (reset_store_digest _ _ _ _ _ _ Hu'). congruence.
  - intros Hnow. rewrite reset_password_cases.
    rewrite find_all_false; [reflexivity|].
    intros r Hr. destruct (is_consumable _ _ r) eqn:E; [|reflexivity].
    apply is_consumable_iff in E. destruct E as [Hrt [_ Hexp]].
    simpl in Hr. apply in_app_iff in Hr. destruct Hr as [Hr | [<- | []]].
    + apply in_map_iff in Hr. destruct Hr as [y [<- Hy]].
      destruct (retire_keeps (user_id u) y) as [_ [_ [Hkeep _]]].
      exfalso. apply Htok. rewrite <- Hsame, <- Hrt, Hkeep. now apply in_map.
    + cbn [issued_reset_token reset_expires_at] in Hexp.
      unfold get_password_reset_expiry in Hexp. lia.
Qed.

(** X18.  A reset touches one account only.  Whatever the call does, the
    ids, addresses, names and active flags of all accounts stay as they
    were, an account that does not own the presented token keeps its
    row, digest included, and so does every reset-token row with
    another token. *)
Theorem reset_password_spares_other_accounts env st body :
  wf_store st ->
  let out := post_reset_password env st body in
  map user_id (users (store out)) = map user_id (users st) /\
  map user_email (users (store out)) = map user_email (users st) /\
  map full_name (users (store out)) = map full_name (users st) /\
  map is_active (users (store out)) = map is_active (users st) /\
  (forall u, In u (users st) ->
     (forall rt, In rt (password_reset_tokens st) ->
                 reset_token rt = Schemas.rp_token body ->
                 reset_user_id rt <> user_id u) ->
     In u (users (store out))) /\
  (forall r, In r (password_reset_tokens st) ->
     reset_token r <> Schemas.rp_token body ->
     In r (password_reset_tokens (store out))).
Proof.
  intros Hwf out. subst out.
  assert (Hsame : forall P : Store -> Prop, P st ->
            (forall rt user,
               In rt (password_reset_tokens st) ->
               reset_token rt = Schemas.rp_token body ->
               user_id user = reset_user_id rt ->
               P (reset_store env body rt user st)) ->
            P (store (post_reset_password env st body))).
  { intros P Hst Hreset.
    destruct (Schemas.policy_conforming (Schemas.rp_new_password body)) eqn:Hpol.
    - rewrite (post_reset_password_good_password _ _ _ Hpol), reset_password_cases.
      destruct (find _ (password_reset_tokens st)) as [rt|] eqn:Hrt; [|exact Hst].
      destruct (find _ (users st)) as [user|] eqn:Hu; [|exact Hst].
      destruct (constraints_ok _); [|exact Hst].
      destruct (find_some _ _ Hrt) as [Hin Hc]. apply is_consumable_iff in Hc.
      destruct (find_some _ _ Hu) as [_ Hid]. unfold has_id in Hid.
      apply Z.eqb_eq in Hid. apply Hreset; detach; tauto.
    - destruct (post_reset_password_bad_password env st body Hpol)
        as [errors [_ ->]]. exact Hst. }
  apply Hsame.
  - repeat split; auto.
  - intros rt user Hrt Htok Hid. simpl.
    repeat split.
    + apply map_map_same. intros x. now destruct (has_id _ x).
    + apply map_map_same. intros x. now destruct (has_id _ x).
    + apply map_map_same. intros x. now destruct (has_id _ x).
    + apply map_map_same. intros x. now destruct (has_id _ x).
    + intros u Hu Hother. apply in_map_iff. exists u. split; [|assumption].
      destruct (has_id (user_id user) u) eqn:E; [|reflexivity].
      unfold has_id in E. apply Z.eqb_eq in E.
      exfalso. apply (Hother rt Hrt Htok). congruence.
    + intros r Hr Hne. apply in_map_iff. exists r. split; [|assumption].
      destruct (reset_id r =? reset_id rt) eqn:E; [|reflexivity].
      apply Z.eqb_eq in E.
      assert (r = rt).
      { apply (NoDup_map_inj reset_id (password_reset_tokens st)); auto.
        apply (wf_reset_pk _ Hwf). }
      subst r. congruence.
Qed.

Lemma not_in_map_filter {A B} (f : A -> B) (p : A -> bool) (l : list A) (x : B) :
  ~ In x (map f l) -> ~ In x (map f (filter p l)).
Proof.
  intros H Hin. apply H. apply in_map_iff in Hin. destruct Hin as [y [Hy Hin]].
  apply filter_In in Hin. apply in_map_iff. exists y. detach; tauto.
Qed.

(** X19.  After a reset, a login for the owner of the token succeeds
    exactly when the primitive verifies the presented password against
    the digest of the new password, and is answered Unauthorized
    otherwise; the new password itself logs in, provided the primitive
    verifies a password against its own digest. *)
Theorem reset_then_login env env2 st body request credentials rt u :
  wf_store st ->
  Schemas.policy_conforming (Schemas.rp_new_password body) = true ->
  In rt (password_reset_tokens st) ->
  reset_token rt = Schemas.rp_token body ->
  used rt = Some false ->
  utcnow env < reset_expires_at rt ->
  In u (users st) ->
  user_id u = reset_user_id rt ->
  is_active u = Some true ->
  user_email u = lower (Schemas.ul_email credentials) ->
  ~ In (uuid4 env2) (map session_id (sessions st)) ->
  ~ In (token_urlsafe env2) (map session_token (sessions st)) ->
  let digest := hash_password (salt env) (Schemas.rp_new_password body) in
  let changed := post_reset_password env st body in
  let logged_in := post_login env2 (store changed) request credentials in
  response changed = reset_password_ok /\
  (verify_password (Schemas.ul_password credentials) digest = true ->
   response logged_in = login_ok env2 (with_password digest (utcnow env) u)) /\
  (verify_password (Schemas.ul_password credentials) digest = false ->
   logged_in = refused Unauthorized (store changed)) /\
  ((forall s p, verify_password p (hash_password s p) = true) ->
   Schemas.ul_password credentials = Schemas.rp_new_password body ->
   response logged_in = login_ok env2 (with_password digest (utcnow env) u)).
Proof.
  intros Hwf Hpol Hrt Htok Hused Hexp Hu Hown Hact Hmail Hsid Hstok
         digest changed logged_in.
  subst changed logged_in.
  rewrite (post_reset_password_good_password _ _ _ Hpol).
  destruct (reset_password_consumes env st body rt Hwf Hrt Htok Hused Hexp)
    as [user [Huin [Hid ->]]].
  assert (user = u).
  { apply (NoDup_map_inj user_id (users st)); auto.
    - apply (wf_user_pk _ Hwf).
    - congruence. }
  subst user. cbn [response store].
  split; [reflexivity|].
  assert (Hwf' : wf_store (reset_store env body rt u st)) by now apply reset_store_wf.
  assert (Hin' : In (with_password digest (utcnow env) u)
                    (users (reset_store env body rt u st)))
    by now apply reset_store_account.
  assert (Hgood : verify_password (Schemas.ul_password credentials) digest = true ->
            response (post_login env2 (reset_store env body rt u st) request
                        credentials)
            = login_ok env2 (with_password digest (utcnow env) u)).
  { intros Hpw.
    erewrite post_login_succeeds; try exact Hwf'; try exact Hin'.
    - reflexivity.
    - exact Hmail.
    - exact Hpw.
    - exact Hact.
    - simpl. now apply not_in_map_filter.
    - simpl. now apply not_in_map_filter. }
  split; [exact Hgood|]. split.
  - intros Hpw. rewrite post_login_cases.
    rewrite (find_has_email _ _ _ Hwf' Hin' Hmail).
    cbn [hashed_password with_password]. now rewrite Hpw.
  - intros Hcomplete Hpw. apply Hgood. rewrite Hpw. apply Hcomplete.
Qed.

(** X20.  Addresses are looked up without regard to letter case: two
    logins, or two reset requests, whose addresses differ only in case
    have the same outcome. *)
Theorem email_lookup_ignores_case env st request e1 e2 password :
  lower e1 = lower e2 ->
  post_login env st request
    {| Schemas.ul_email := e1; Schemas.ul_password := password |}
  = post_login env st request
      {| Schemas.ul_email := e2; Schemas.ul_password := password |} /\
  post_forgot_password env st {| Schemas.fp_email := e1 |}
  = post_forgot_password env st {| Schemas.fp_email := e2 |} /\
  post_login env st request
    {| Schemas.ul_email := lower e1; Schemas.ul_password := password |}
  = post_login env st request
      {| Schemas.ul_email := e1; Schemas.ul_password := password |}.
Proof.
  intros H. rewrite !post_login_cases, !forgot_password_cases.
  cbn [Schemas.ul_email Schemas.ul_password Schemas.fp_email].
  rewrite lower_idem, H. repeat split.
Qed.

(** X21.  When the gate answers a request itself, the answer is always
    a 302 redirect to "/login" on a protected path; it never sets a
    cookie, and it has the session cookie deleted only when a non-empty
    cookie was looked up in a database that answered and resolved to no
    account. *)
Theorem gate_answers_only_with_login_redirect env up st request r :
  dispatch env up st request = Respond r ->
  is_public (path request) = false /\
  status r = 302 /\
  location r = Some "/login" /\
  (cookies r = [] \/
   (cookies r = [DeleteCookie "session_token"] /\
    up = true /\
    exists token, cookie_session_token request = Some token /\ token <> "" /\
                  resolve_session env st token = Return None)).
Proof.
  destruct (is_public (path request)) eqn:Hpub.
  - rewrite (dispatch_public _ _ _ _ Hpub). discriminate.
  - intros H. split; [reflexivity|].
    destruct (cookie_session_token request) as [token|] eqn:Hc.
    + destruct (truthy token) eqn:Ht.
      * assert (Hne : token <> "") by (intros ->; discriminate).
        rewrite (dispatch_protected env up st request token Hpub Hc Hne) in H.
        destruct up.
        -- fold (resolve_session env st token) in H.
           destruct (resolve_session env st token) as [[user|]|e] eqn:Hres;
             try discriminate; injection H as <-.
           ++ split; [reflexivity|]. split; [reflexivity|]. right.
              split; [reflexivity|]. split; [reflexivity|]. now exists token.
           ++ repeat split. now left.
        -- rewrite get_current_user_from_cookie_down in H by (auto || reflexivity).
           injection H as <-. repeat split. now left.
      * unfold dispatch in H. rewrite Hpub, Hc, Ht in H. injection H as <-.
        repeat split. now left.
    + unfold dispatch in H. rewrite Hpub, Hc in H. injection H as <-.
      repeat split. now left.
Qed.

End App.

(* ================================================================== *)
(** ** Worked examples on the sample data *)

Lemma sample_store_wf : wf_store sample_store.
Proof. apply constraints_ok_iff. reflexivity. Qed.

Lemma sample_verify_complete s p : sample_verify p (sample_hash s p) = true.
Proof. unfold sample_verify, sample_hash. apply String.eqb_refl. Qed.

Lemma sample_verify_sound s p q : sample_verify p (sample_hash s q) = true -> p = q.
Proof.
  unfold sample_verify, sample_hash. intros H.
  apply String.eqb_eq in H. simpl in H. now injection H.
Qed.

Lemma sample_fresh_id :
  ~ In (uuid4 sample_env) (map reset_id (password_reset_tokens sample_store)).
Proof. simpl. intros [H | []]. discriminate. Qed.

Lemma sample_fresh_token :
  ~ In (token_urlsafe sample_env) (map reset_token (password_reset_tokens sample_store)).
Proof. simpl. intros [H | []]. discriminate. Qed.

(** The session cookie of an active account resolves, by the
    characterisation of [get_current_user_from_cookie]. *)
Lemma resolve_session_exactly_when_valid_witness :
  reachable (SessionLocal sample_store true) = true /\
  wf_store (txn (SessionLocal sample_store true)) /\
  exists r,
    fst (get_current_user_from_cookie sample_env "alice-session"
           (SessionLocal sample_store true)) = Return r /\
    exists u, r = Some u.
Proof.
  split; [reflexivity|]. split; [exact sample_store_wf|].
  destruct (proj2 (resolve_session_exactly_when_valid sample_env
                     (SessionLocal sample_store true) "alice-session")
              eq_refl sample_store_wf) as [r [Hr [Hiff _]]].
  exists r. split; [exact Hr|]. apply Hiff.
  split; [discriminate|].
  exists alice_session. simpl. repeat split; try (left; reflexivity).
  exists alice. simpl. repeat split. now left.
Defined.

(** An unknown address and a wrong password for alice get one answer. *)
Lemma login_unknown_email_equals_wrong_password_witness :
  let nobody := {| Schemas.ul_email := "nobody@vysusgroup.com";
                   Schemas.ul_password := "GoodPass123" |} in
  let wrong := {| Schemas.ul_email := "Alice@vysusgroup.com";
                  Schemas.ul_password := "WrongPass999" |} in
  let request := get_request "/api/auth/login" None in
  post_login default_settings sample_verify sample_env sample_store request nobody
  = post_login default_settings sample_verify later_env sample_store request wrong /\
  response (post_login default_settings sample_verify sample_env sample_store
              request nobody)
  = plain 401 (JsonDetail "Invalid email or password") /\
  store (post_login default_settings sample_verify sample_env sample_store
           request nobody) = sample_store /\
  store (post_login default_settings sample_verify later_env sample_store
           request wrong) = sample_store.
Proof.
  intros nobody wrong request.
  apply (login_unknown_email_equals_wrong_password default_settings sample_verify
           sample_env later_env sample_store request request nobody wrong alice).
  - exact sample_store_wf.
  - simpl. intros v [<- | [<- | []]]; discriminate.
  - simpl. now left.
  - reflexivity.
  - reflexivity.
  - reflexivity.
Defined.

(** Bob is deactivated: a wrong password for him is answered Unauthorized. *)
Lemma login_checks_password_before_active_flag_witness :
  let body := {| Schemas.ul_email := "bob@vysusgroup.com";
                 Schemas.ul_password := "WrongPass999" |} in
  let request := get_request "/api/auth/login" None in
  is_active bob = Some false /\
  sample_verify "WrongPass999" (hashed_password bob) = false /\
  post_login default_settings sample_verify sample_env sample_store request body
  = refused Unauthorized sample_store /\
  response (post_login default_settings sample_verify sample_env sample_store
              request body) <> render_exn Forbidden.
Proof.
  intros body request.
  split; [reflexivity|]. split; [reflexivity|].
  apply (proj1 (login_checks_password_before_active_flag default_settings
                  sample_verify sample_env sample_store request body) bob).
  - exact sample_store_wf.
  - simpl. right. now left.
  - reflexivity.
  - reflexivity.
  - reflexivity.
Defined.

(** A foreign address and a short password are both turned away. *)
Lemma validation_enforces_domain_and_password_policy_witness :
  let foreign := {| Schemas.uc_email := "mallory@example.com";
                    Schemas.uc_password := "GoodPass123";
                    Schemas.uc_full_name := None |} in
  let weak := {| Schemas.rp_token := "alice-reset";
                 Schemas.rp_new_password := "Short1" |} in
  endswith (lower (Schemas.uc_email foreign)) "@vysusgroup.com" = false /\
  len "Short1" < 10 /\
  (exists errors,
     is_ValidationError (RequestValidationError errors) /\
     post_register sample_hash sample_env sample_store foreign
     = refused (RequestValidationError errors) sample_store /\
     users (store (post_register sample_hash sample_env sample_store foreign))
     = users sample_store) /\
  (exists errors,
     errors <> [] /\
     post_reset_password sample_hash sample_env sample_store weak
     = refused (RequestValidationError errors) sample_store).
Proof.
  intros foreign weak.
  split; [reflexivity|]. split; [reflexivity|].
  destruct (validation_enforces_domain_and_password_policy sample_hash sample_env
              sample_store) as [Hmail Hpw].
  split.
  - apply (Hmail foreign). reflexivity.
  - apply (proj2 (Hpw "Short1" (or_introl eq_refl)) weak). reflexivity.
Defined.

(** Alice consumes her reset link with a new password: every effect of
    the reset is there, her old session cookie resolves no more, and a
    run cut short before the commit would have left the store alone. *)
Lemma reset_password_all_or_nothing_witness :
  let body := {| Schemas.rp_token := "alice-reset";
                 Schemas.rp_new_password := "NewPass4567" |} in
  let out := post_reset_password sample_hash sample_env sample_store body in
  (forall s p, sample_verify p (sample_hash s p) = true) /\
  wf_store sample_store /\
  response out = reset_password_ok /\
  resolve_session later_env (store out) "alice-session" = Return None /\
  (forall u', In u' (users (store out)) -> user_id u' = user_id alice ->
     hashed_password u' = sample_hash (salt sample_env) "NewPass4567" /\
     sample_verify "NewPass4567" (hashed_password u') = true) /\
  In (with_used (Some true) alice_reset) (password_reset_tokens (store out)) /\
  database (snd (interrupted 3 (reset_statements sample_hash sample_env body
                                  alice_reset alice)
                   (SessionLocal sample_store true)))
  = sample_store.
Proof.
  intros body out.
  split; [exact sample_verify_complete|].
  split; [exact sample_store_wf|].
  destruct (reset_password_all_or_nothing sample_hash sample_verify sample_env
              sample_store body sample_verify_complete sample_store_wf)
    as [_ [_ [_ [Hcut Hall]]]].
  destruct (Hall alice_reset eq_refl (or_introl eq_refl) eq_refl eq_refl eq_refl)
    as [Hok [_ [Hres [_ [Hd [Hrt _]]]]]].
  split; [exact Hok|].
  split; [exact (Hres later_env alice_session (or_introl eq_refl) eq_refl)|].
  split.
  - intros u' Hu' Hid. destruct (Hd u' Hu' Hid) as [H1 [H2 _]]. now split.
  - split; [exact Hrt|].
    exact (Hcut alice_reset alice 3%nat (SessionLocal sample_store true)
             ltac:(repeat constructor)).
Defined.

(** Alice's reset link works once and is refused the second time. *)
Lemma reset_token_is_single_use_witness :
  let body1 := {| Schemas.rp_token := "alice-reset";
                  Schemas.rp_new_password := "NewPass4567" |} in
  let body2 := {| Schemas.rp_token := "alice-reset";
                  Schemas.rp_new_password := "Another8910" |} in
  let first := post_reset_password sample_hash sample_env sample_store body1 in
  let second := post_reset_password sample_hash later_env (store first) body2 in
  wf_store sample_store /\
  response first = reset_password_ok /\
  response second = render_exn InvalidOrExpired /\
  store second = store first.
Proof.
  intros body1 body2 first second.
  split; [exact sample_store_wf|].
  apply (reset_token_is_single_use sample_hash sample_env later_env sample_store
           body1 body2 alice_reset).
  - exact sample_store_wf.
  - reflexivity.
  - reflexivity.
  - reflexivity.
  - simpl. now left.
  - reflexivity.
  - reflexivity.
  - reflexivity.
Defined.

(** A weak password is reported whatever the token; an unknown token is
    reported once the password conforms. *)
Lemma reset_password_validates_before_token_lookup_witness :
  let weak := {| Schemas.rp_token := "no-such-token";
                 Schemas.rp_new_password := "short" |} in
  let strong := {| Schemas.rp_token := "no-such-token";
                   Schemas.rp_new_password := "GoodPass123" |} in
  Schemas.policy_conforming "short" = false /\
  Schemas.policy_conforming "GoodPass123" = true /\
  (exists errors,
     is_ValidationError (RequestValidationError errors) /\
     post_reset_password sample_hash sample_env sample_store weak
     = refused (RequestValidationError errors) sample_store) /\
  post_reset_password sample_hash sample_env sample_store strong
  = refused InvalidOrExpired sample_store.
Proof.
  intros weak strong.
  split; [reflexivity|]. split; [reflexivity|].
  split.
  - apply (proj1 (reset_password_validates_before_token_lookup sample_hash
                    sample_env sample_store weak)).
    reflexivity.
  - apply (proj2 (reset_password_validates_before_token_lookup sample_hash
                    sample_env sample_store strong)).
    + reflexivity.
    + simpl. intros r [<- | []] H. discriminate.
Defined.

(** Alice asks for a link while an older one is still open: the older
    one is retired and the new row is her only unused token. *)
Lemma forgot_password_retires_older_tokens_witness :
  let body := {| Schemas.fp_email := "Alice@vysusgroup.com" |} in
  let out := post_forgot_password default_settings sample_env sample_store body in
  wf_store sample_store /\
  ~ In (uuid4 sample_env) (map reset_id (password_reset_tokens sample_store)) /\
  ~ In (token_urlsafe sample_env)
       (map reset_token (password_reset_tokens sample_store)) /\
  response out = forgot_password_ack /\
  filter (unused_of (user_id alice)) (password_reset_tokens (store out))
  = [issued_reset_token default_settings sample_env alice] /\
  (forall now,
     find (is_consumable "alice-reset" now) (password_reset_tokens (store out))
     = None).
Proof.
  intros body out.
  split; [exact sample_store_wf|].
  split; [exact sample_fresh_id|].
  split; [exact sample_fresh_token|].
  destruct (forgot_password_retires_older_tokens default_settings sample_hash
              sample_env sample_store body sample_store_wf sample_fresh_id sample_fresh_token)
    as [Hack [_ Hactive]].
  destruct (Hactive alice (or_introl eq_refl) eq_refl eq_refl)
    as [_ [_ [_ [Hone [Hold _]]]]].
  split; [exact Hack|]. split; [exact Hone|].
  exact (Hold alice_reset (or_introl eq_refl) eq_refl).
Defined.

(** A stale cookie on a protected path: redirected, cookie cleared. *)
Lemma gate_fails_closed_witness :
  let request := get_request "/training-plan.html" (Some "stale-cookie") in
  is_public (path request) = false /\
  cookie_session_token request = Some "stale-cookie" /\
  "stale-cookie" <> "" /\
  dispatch sample_env true sample_store request
  = Respond redirect_to_login_clearing_cookie.
Proof.
  intros request.
  split; [reflexivity|]. split; [reflexivity|]. split; [discriminate|].
  apply (proj1 (proj2 (gate_fails_closed sample_env true sample_store request
                         "stale-cookie" eq_refl eq_refl
                         ltac:(discriminate)))).
  reflexivity.
Defined.


(* ================================================================== *)
(** ** Where the specification and the code part ways *)

(** C1, counterexample.  Alice resets with the password she already has:
    the call succeeds, and the old password still verifies afterwards. *)
Lemma reset_password_old_password_may_still_verify :
  let body := {| Schemas.rp_token := "alice-reset";
                 Schemas.rp_new_password := "GoodPass123" |} in
  let out := post_reset_password sample_hash sample_env sample_store body in
  wf_store sample_store /\
  Schemas.policy_conforming "GoodPass123" = true /\
  is_consumable "alice-reset" (utcnow sample_env) alice_reset = true /\
  sample_verify "GoodPass123" (hashed_password alice) = true /\
  response out = reset_password_ok /\
  ~ (forall old u',
       sample_verify old (hashed_password alice) = true ->
       In u' (users (store out)) -> user_id u' = user_id alice ->
       sample_verify old (hashed_password u') = false).
Proof.
  intros body out.
  split; [exact sample_store_wf|].
  split; [reflexivity|]. split; [reflexivity|]. split; [reflexivity|].
  split; [reflexivity|].
  intros H.
  specialize (H "GoodPass123"
                (with_password "plain$GoodPass123" 100 alice) eq_refl).
  assert (Hin : In (with_password "plain$GoodPass123" 100 alice) (users (store out)))
    by (vm_compute; now left).
  specialize (H Hin eq_refl). vm_compute in H. discriminate.
Qed.

(** C5, counterexample.  The database does not answer while the gate
    resolves a cookie: the gate redirects to the login page, and the
    response carries no instruction to delete the cookie.  A cookie that
    is present with an empty value is answered the same way. *)
Lemma gate_keeps_cookie_when_lookup_raises :
  let request := get_request "/training-plan.html" (Some "stale-cookie") in
  let blank := get_request "/training-plan.html" (Some "") in
  is_public (path request) = false /\
  fst (get_current_user_from_cookie sample_env "stale-cookie"
         (SessionLocal sample_store false)) = Raise OperationalError /\
  dispatch sample_env false sample_store request = Respond redirect_to_login /\
  dispatch sample_env true sample_store blank = Respond redirect_to_login /\
  ~ In (DeleteCookie "session_token") (cookies redirect_to_login).
Proof.
  intros request blank. repeat split. intros [].
Qed.

(** C7, counterexample.  An unknown token together with a password that
    is too short: the answer is the validation error, not
    InvalidOrExpired. *)
Lemma reset_password_weak_password_hides_bad_token :
  let body := {| Schemas.rp_token := "no-such-token";
                 Schemas.rp_new_password := "short" |} in
  let out := post_reset_password sample_hash sample_env sample_store body in
  find (is_consumable "no-such-token" (utcnow sample_env))
       (password_reset_tokens sample_store) = None /\
  response out
  = plain 422 (JsonErrors ["Password must be at least 10 characters"]) /\
  response out <> render_exn InvalidOrExpired.
Proof.
  intros body out. repeat split. discriminate.
Qed.

(* ================================================================== *)
(** ** Further worked examples *)

Lemma sample_no_carol u :
  In u (users sample_store) ->
  user_email u <> lower (Schemas.uc_email carol_body).
Proof. simpl. intros [<- | [<- | []]]; discriminate. Qed.

Lemma sample_fresh_user_id :
  ~ In (uuid4 sample_env) (map user_id (users sample_store)).
Proof. simpl. intros [H | [H | []]]; discriminate. Qed.

Lemma sample_fresh_session_id env :
  uuid4 env <> 10 -> ~ In (uuid4 env) (map session_id (sessions sample_store)).
Proof. simpl. intros Hne [H | []]. now apply Hne. Qed.

Lemma sample_fresh_session_token env :
  token_urlsafe env <> "alice-session" ->
  ~ In (token_urlsafe env) (map session_token (sessions sample_store)).
Proof. simpl. intros Hne [H | []]. now apply Hne. Qed.

Lemma sample_alice_in : In alice (users sample_store).
Proof. simpl. now left. Qed.

Lemma sample_reset_in : In alice_reset (password_reset_tokens sample_store).
Proof. simpl. now left. Qed.

Lemma sample_carol_email_fits : len (Schemas.uc_email carol_body) <= 255.
Proof. discriminate. Qed.

Lemma sample_carol_name_fits name :
  Schemas.uc_full_name carol_body = Some name -> len name <= 255.
Proof. intros H. injection H as <-. discriminate. Qed.


(** Alice's address, typed in capitals, is taken. *)
Lemma register_rejects_taken_email_witness :
  let body := {| Schemas.uc_email := "ALICE@vysusgroup.com";
                 Schemas.uc_password := "GoodPass123";
                 Schemas.uc_full_name := None |} in
  In alice (users sample_store) /\
  user_email alice = lower (Schemas.uc_email body) /\
  post_register sample_hash sample_env sample_store body
  = refused Conflict sample_store.
Proof.
  intros body.
  split; [exact sample_alice_in|]. split; [reflexivity|].
  exact (register_rejects_taken_email sample_hash sample_env sample_store body alice
           eq_refl eq_refl sample_alice_in eq_refl).
Defined.

(** Carol registers, then tries again in another letter case. *)
Lemma register_twice_conflicts_witness :
  let first := post_register sample_hash sample_env sample_store carol_body in
  let second := post_register sample_hash later_env (store first) carol_again in
  wf_store sample_store /\
  lower (Schemas.uc_email carol_again) = lower (Schemas.uc_email carol_body) /\
  response first = registration_ok /\
  second = refused Conflict (store first) /\
  List.length
    (filter (has_email (lower (Schemas.uc_email carol_body))) (users (store second)))
  = 1%nat.
Proof.
  intros first second.
  split; [exact sample_store_wf|]. split; [reflexivity|].
  exact (register_twice_conflicts sample_hash sample_env later_env sample_store
           carol_body carol_again sample_store_wf eq_refl eq_refl
           sample_carol_email_fits sample_carol_name_fits sample_no_carol
           sample_fresh_user_id eq_refl eq_refl).
Defined.

(** Alice logs in: one more session row, good for seven days. *)
Lemma login_creates_session_witness :
  let request := post_request "/api/auth/login" None in
  let out := post_login default_settings sample_verify sample_env sample_store
               request alice_login in
  wf_store sample_store /\
  sample_verify (Schemas.ul_password alice_login) (hashed_password alice) = true /\
  is_active alice = Some true /\
  exists s,
    sessions (store out) = (sessions sample_store ++ [s])%list /\
    session_user_id s = user_id alice /\
    session_token s = "fresh-token" /\
    session_expires_at s = 100 + 7 * 86400.
Proof.
  intros request out.
  split; [exact sample_store_wf|]. split; [reflexivity|]. split; [reflexivity|].
  destruct (login_creates_session default_settings sample_verify sample_env
              sample_store request alice_login alice sample_store_wf
              sample_alice_in eq_refl eq_refl eq_refl
              (sample_fresh_session_id sample_env ltac:(discriminate))
              (sample_fresh_session_token sample_env ltac:(discriminate)))
    as [s [c [H1 [H2 [H3 [H4 _]]]]]].
  exists s. split; [exact H1|]. split; [exact H2|]. split; [exact H3 | exact H4].
Defined.

(** The token of that login resolves to alice a little later. *)
Lemma login_session_resolves_until_expiry_witness :
  let request := post_request "/api/auth/login" None in
  let out := post_login default_settings sample_verify sample_env sample_store
               request alice_login in
  token_urlsafe sample_env <> "" /\
  utcnow later_env < utcnow sample_env + session_expire_days default_settings * 86400 /\
  resolve_session later_env (store out) (token_urlsafe sample_env)
  = Return (Some alice).
Proof.
  intros request out.
  split; [discriminate|]. split; [reflexivity|].
  apply (proj1 (login_session_resolves_until_expiry default_settings sample_verify
                  sample_env sample_store request alice_login alice sample_store_wf
                  sample_alice_in eq_refl eq_refl eq_refl
                  (sample_fresh_session_id sample_env ltac:(discriminate))
                  (sample_fresh_session_token sample_env ltac:(discriminate))
                  ltac:(discriminate) later_env)).
  reflexivity.
Defined.

(** Alice's earlier session is not disturbed by her new login. *)
Lemma login_keeps_other_sessions_witness :
  let request := post_request "/api/auth/login" None in
  "alice-session" <> token_urlsafe sample_env /\
  resolve_session later_env
    (store (post_login default_settings sample_verify sample_env sample_store
              request alice_login))
    "alice-session"
  = resolve_session later_env sample_store "alice-session".
Proof.
  intros request. split; [discriminate|].
  apply (login_keeps_other_sessions default_settings sample_verify sample_env
           sample_store request alice_login later_env "alice-session").
  discriminate.
Defined.

(** Alice logs out. *)
Lemma logout_deletes_the_session_witness :
  let request := post_request "/api/auth/logout" (Some "alice-session") in
  let out := post_logout sample_env sample_store request in
  wf_store sample_store /\
  cookie_session_token request = Some "alice-session" /\
  response out = logout_ok /\
  resolve_session later_env (store out) "alice-session" = Return None /\
  users (store out) = users sample_store.
Proof.
  intros request out.
  split; [exact sample_store_wf|]. split; [reflexivity|].
  destruct (logout_deletes_the_session sample_env sample_store request
              "alice-session" sample_store_wf eq_refl ltac:(discriminate))
    as [H1 [_ [_ [H4 [_ [H6 _]]]]]].
  split; [exact H1|]. split; [exact (H4 later_env) | exact H6].
Defined.

(** Logging out twice, and logging out without a cookie. *)
Lemma logout_is_idempotent_witness :
  let request := post_request "/api/auth/logout" (Some "alice-session") in
  let bare := post_request "/api/auth/logout" None in
  let first := post_logout sample_env sample_store request in
  let second := post_logout later_env (store first) request in
  wf_store sample_store /\
  cookie_session_token bare = None /\
  post_logout sample_env sample_store bare
  = {| response := logout_ok; store := sample_store; mail := [] |} /\
  response first = logout_ok /\
  response second = logout_ok /\
  store second = store first.
Proof.
  intros request bare first second.
  split; [exact sample_store_wf|]. split; [reflexivity|].
  split.
  - apply (proj1 (logout_is_idempotent sample_env later_env sample_store bare)).
    now left.
  - exact (proj2 (logout_is_idempotent sample_env later_env sample_store request)
             sample_store_wf).
Defined.

(** Alice logs in and out again: the store is as before. *)
Lemma login_then_logout_restores_store_witness :
  let request := post_request "/api/auth/login" None in
  let request2 := post_request "/api/auth/logout" (Some "fresh-token") in
  let logged_in := post_login default_settings sample_verify sample_env sample_store
                     request alice_login in
  let logged_out := post_logout later_env (store logged_in) request2 in
  wf_store sample_store /\
  cookie_session_token request2 = Some (token_urlsafe sample_env) /\
  response logged_in = login_ok default_settings sample_env alice /\
  response logged_out = logout_ok /\
  store logged_out = sample_store.
Proof.
  intros request request2 logged_in logged_out.
  split; [exact sample_store_wf|]. split; [reflexivity|].
  exact (login_then_logout_restores_store default_settings sample_verify sample_env
           later_env sample_store request request2 alice_login alice sample_store_wf
           sample_alice_in eq_refl eq_refl eq_refl
           (sample_fresh_session_id sample_env ltac:(discriminate))
           (sample_fresh_session_token sample_env ltac:(discriminate))
           ltac:(discriminate) eq_refl).
Defined.

(** Carol registers and logs in. *)
Lemma register_then_login_witness :
  let request := post_request "/api/auth/login" None in
  let registered := post_register sample_hash sample_env sample_store carol_body in
  let logged_in := post_login default_settings sample_verify later_env
                     (store registered) request carol_login in
  (forall s p, sample_verify p (sample_hash s p) = true) /\
  wf_store sample_store /\
  lower (Schemas.ul_email carol_login) = lower (Schemas.uc_email carol_body) /\
  response registered = registration_ok /\
  exists account,
    In account (users (store registered)) /\
    user_email account = "carol@vysusgroup.com" /\
    response logged_in = login_ok default_settings later_env account.
Proof.
  intros request registered logged_in.
  split; [exact sample_verify_complete|]. split; [exact sample_store_wf|].
  split; [reflexivity|].
  destruct (register_then_login default_settings sample_hash sample_verify sample_env
              later_env sample_store request carol_body carol_login
              sample_verify_complete sample_store_wf eq_refl eq_refl
              sample_carol_email_fits sample_carol_name_fits sample_no_carol
              sample_fresh_user_id eq_refl eq_refl
              (sample_fresh_session_id later_env ltac:(discriminate))
              (sample_fresh_session_token later_env ltac:(discriminate)))
    as [H1 [account [H2 [H3 [H4 _]]]]].
  split; [exact H1|]. exists account.
  split; [exact H2|]. split; [exact H3 | exact H4].
Defined.

(** Alice asks who she is. *)
Lemma get_me_requires_live_session_witness :
  let request := get_request "/api/auth/me" (Some "alice-session") in
  cookie_session_token request = Some "alice-session" /\
  resolve_session sample_env sample_store "alice-session" = Return (Some alice) /\
  response (get_auth_me sample_env sample_store request) = plain 200 (JsonUser alice) /\
  store (get_auth_me sample_env sample_store request) = sample_store.
Proof.
  intros request.
  split; [reflexivity|]. split; [reflexivity|].
  destruct (get_me_requires_live_session sample_env sample_store request)
    as [Hstore [Hiff _]].
  split; [|exact Hstore].
  apply Hiff. exists "alice-session". split; reflexivity.
Defined.

(** Alice's cookie opens the training plan: the gate found her session. *)
Lemma gate_admits_only_live_sessions_witness :
  let request := get_request "/training-plan.html" (Some "alice-session") in
  dispatch sample_env true sample_store request = CallNext (Some alice) /\
  exists s,
    In s (sessions sample_store) /\ session_token s = "alice-session" /\
    utcnow sample_env < session_expires_at s /\
    session_user_id s = user_id alice.
Proof.
  intros request. split; [reflexivity|].
  destruct (gate_admits_only_live_sessions sample_env true sample_store request
              (Some alice) eq_refl)
    as [[Hpub _] | [_ [token [u [s H]]]]].
  - discriminate Hpub.
  - destruct H as [Hc [_ [Hg [_ [_ [_ [Hs [Ht [He Ho]]]]]]]]].
    injection Hc as <-. injection Hg as <-. exists s. now repeat split.
Defined.

(** Bob is deactivated: even his right password does not log him in. *)
Lemma deactivated_account_is_locked_out_witness :
  let request := post_request "/api/auth/login" None in
  let body := {| Schemas.ul_email := "bob@vysusgroup.com";
                 Schemas.ul_password := "OtherPass456" |} in
  wf_store sample_store /\
  In bob (users sample_store) /\
  is_active bob <> Some true /\
  (post_login default_settings sample_verify sample_env sample_store request body
   = refused Unauthorized sample_store \/
   post_login default_settings sample_verify sample_env sample_store request body
   = refused Forbidden sample_store).
Proof.
  intros request body.
  assert (Hin : In bob (users sample_store)) by (simpl; right; now left).
  assert (Hoff : is_active bob <> Some true) by discriminate.
  split; [exact sample_store_wf|]. split; [exact Hin|]. split; [exact Hoff|].
  exact (proj2 (deactivated_account_is_locked_out default_settings sample_verify
                  sample_env sample_store bob sample_store_wf Hin Hoff)
           request body eq_refl).
Defined.


(** Carol's registration body is accepted, her address lower-cased. *)
Lemma UserCreate_validate_accepts_iff_witness :
  let data := {| Schemas.uc_email := "carol@vysusgroup.com";
                 Schemas.uc_password := "GoodPass123";
                 Schemas.uc_full_name := Some "Carol" |} in
  endswith (lower (Schemas.uc_email carol_body)) "@vysusgroup.com" = true /\
  Schemas.policy_conforming (Schemas.uc_password carol_body) = true /\
  Schemas.UserCreate_validate carol_body = Return data /\
  lower (Schemas.uc_email data) = Schemas.uc_email data.
Proof.
  intros data.
  split; [reflexivity|]. split; [reflexivity|].
  destruct (UserCreate_validate_accepts_iff carol_body data) as [Hiff Hthen].
  assert (H : Schemas.UserCreate_validate carol_body = Return data)
    by (apply Hiff; repeat split).
  split; [exact H|]. exact (proj1 (Hthen H)).
Defined.

(** The message to alice carries the token stored for her. *)
Lemma forgot_password_swallows_mail_failure_witness :
  let failing := post_forgot_password default_settings
                   (with_smtp_ok false sample_env) sample_store alice_forgot in
  let working := post_forgot_password default_settings
                   (with_smtp_ok true sample_env) sample_store alice_forgot in
  let m := {| mail_to := "alice@vysusgroup.com";
              mail_reset_url :=
                "http://localhost:8000/reset-password?token=fresh-token" |} in
  In m (mail working) /\
  mail working = [m] /\
  response failing = response working /\
  store failing = store working /\
  mail failing = [].
Proof.
  intros failing working m.
  assert (Hin : In m (mail working)) by (left; reflexivity).
  destruct (forgot_password_swallows_mail_failure default_settings sample_env
              sample_store alice_forgot) as [H1 [H2 [H3 H4]]].
  split; [exact Hin|]. split; [exact (proj1 (H4 m Hin))|].
  split; [exact H1|]. split; [exact H2 | exact H3].
Defined.

(** Alice uses the link a hundred seconds after asking for it. *)
Lemma forgot_then_reset_within_lifetime_witness :
  let reset := {| Schemas.rp_token := "fresh-token";
                  Schemas.rp_new_password := "NewPass4567" |} in
  let asked := post_forgot_password default_settings sample_env sample_store
                 alice_forgot in
  let out := post_reset_password sample_hash later_env (store asked) reset in
  wf_store sample_store /\
  is_active alice = Some true /\
  utcnow later_env
  < utcnow sample_env + password_reset_expire_hours default_settings * 3600 /\
  response out = reset_password_ok.
Proof.
  intros reset asked out.
  split; [exact sample_store_wf|]. split; [reflexivity|]. split; [reflexivity|].
  apply (proj1 (forgot_then_reset_within_lifetime default_settings sample_hash
                  sample_env later_env sample_store alice_forgot reset alice
                  sample_store_wf sample_fresh_id sample_fresh_token sample_alice_in
                  eq_refl eq_refl eq_refl eq_refl)).
  reflexivity.
Defined.

(** Alice's reset leaves bob's row alone. *)
Lemma reset_password_spares_other_accounts_witness :
  let out := post_reset_password sample_hash sample_env sample_store
               alice_new_password in
  wf_store sample_store /\
  map user_email (users (store out)) = map user_email (users sample_store) /\
  map is_active (users (store out)) = map is_active (users sample_store) /\
  In bob (users (store out)).
Proof.
  intros out.
  split; [exact sample_store_wf|].
  destruct (reset_password_spares_other_accounts sample_hash sample_env sample_store
              alice_new_password sample_store_wf)
    as [_ [H2 [_ [H4 [H5 _]]]]].
  split; [exact H2|]. split; [exact H4|].
  apply H5.
  - simpl. right. now left.
  - simpl. intros rt [<- | []] _. discriminate.
Defined.

(** After her reset alice logs in with the new password. *)
Lemma reset_then_login_witness :
  let request := post_request "/api/auth/login" None in
  let changed := post_reset_password sample_hash sample_env sample_store
                   alice_new_password in
  let logged_in := post_login default_settings sample_verify later_env
                     (store changed) request alice_new_login in
  wf_store sample_store /\
  used alice_reset = Some false /\
  utcnow sample_env < reset_expires_at alice_reset /\
  sample_verify (Schemas.ul_password alice_new_login)
    (sample_hash (salt sample_env) "NewPass4567") = true /\
  response changed = reset_password_ok /\
  response logged_in
  = login_ok default_settings later_env
      (with_password (sample_hash (salt sample_env) "NewPass4567")
                     (utcnow sample_env) alice).
Proof.
  intros request changed logged_in.
  split; [exact sample_store_wf|]. split; [reflexivity|]. split; [reflexivity|].
  split; [reflexivity|].
  destruct (reset_then_login default_settings sample_hash sample_verify sample_env
              later_env sample_store alice_new_password request alice_new_login
              alice_reset alice
              sample_store_wf eq_refl sample_reset_in eq_refl eq_refl eq_refl
              sample_alice_in eq_refl eq_refl eq_refl
              (sample_fresh_session_id later_env ltac:(discriminate))
              (sample_fresh_session_token later_env ltac:(discriminate)))
    as [H1 [H2 _]].
  split; [exact H1 | exact (H2 eq_refl)].
Defined.

(** "Alice@VysusGroup.com" and "alice@vysusgroup.com" are one address. *)
Lemma email_lookup_ignores_case_witness :
  let request := post_request "/api/auth/login" None in
  lower "Alice@VysusGroup.com" = lower "alice@vysusgroup.com" /\
  post_login default_settings sample_verify sample_env sample_store request
    {| Schemas.ul_email := "Alice@VysusGroup.com";
       Schemas.ul_password := "GoodPass123" |}
  = post_login default_settings sample_verify sample_env sample_store request
      {| Schemas.ul_email := "alice@vysusgroup.com";
         Schemas.ul_password := "GoodPass123" |} /\
  post_forgot_password default_settings sample_env sample_store
    {| Schemas.fp_email := "Alice@VysusGroup.com" |}
  = post_forgot_password default_settings sample_env sample_store
      {| Schemas.fp_email := "alice@vysusgroup.com" |}.
Proof.
  intros request. split; [reflexivity|].
  destruct (email_lookup_ignores_case default_settings sample_verify sample_env
              sample_store request "Alice@VysusGroup.com" "alice@vysusgroup.com"
              "GoodPass123" eq_refl) as [H1 [H2 _]].
  split; [exact H1 | exact H2].
Defined.

(** No cookie on a protected path: a plain redirect to the login page. *)
Lemma gate_answers_only_with_login_redirect_witness :
  let request := get_request "/training-plan.html" None in
  dispatch sample_env true sample_store request = Respond redirect_to_login /\
  is_public (path request) = false /\
  status redirect_to_login = 302 /\
  location redirect_to_login = Some "/login".
Proof.
  intros request. split; [reflexivity|].
  destruct (gate_answers_only_with_login_redirect sample_env true sample_store
              request redirect_to_login eq_refl) as [H1 [H2 [H3 _]]].
  split; [exact H1|]. split; [exact H2 | exact H3].
Defined.
